(** * Filesystem data storage backend of RetrySpool: model and properties

    Shallow embedding of [filesystem.go]: identifier validation, the sharded
    path derivation, and the four operations [StoreData], [GetDataReader],
    [GetDataWriter], [DeleteData] together with [Close] and the recursive
    empty-directory cleanup.

    Go strings are byte strings and are modelled by [string]; [len] is
    [String.length] and [s[:2]] is [substring 0 2 s].

    The storage medium is an idealised Unix tree of named nodes: no symbolic
    links, no permissions, no quotas, no limits on name lengths, no device
    faults.  A path handed to the operating system is made absolute
    lexically (as [filepath.Abs] does) and then walked from the root.  The
    functions of Go's [path/filepath], [strings] and [os] packages that the
    backend calls are modelled after their documentation for Unix, where
    the only separator is the forward slash. *)

From Stdlib Require Import Ascii String ZArith List Lia Bool.
From Stdlib.Strings Require Import Byte.
From stdpp Require Import gmap strings list fin_maps.

Open Scope string_scope.
Open Scope list_scope.
Open Scope Z_scope.
Open Scope nat_scope.

(** ** Package [strings] *)

Module strings.

(** [strings.Contains(s, substr)] *)
Fixpoint Contains (s substr : string) : bool :=
  String.prefix substr s ||
  match s with
  | EmptyString => false
  | String _ s' => Contains s' substr
  end.

Fixpoint IndexByte (s : string) (c : ascii) : bool :=
  match s with
  | EmptyString => false
  | String d s' => Ascii.eqb d c || IndexByte s' c
  end.

(** [strings.ContainsAny(s, chars)] *)
Fixpoint ContainsAny (s chars : string) : bool :=
  match s with
  | EmptyString => false
  | String c s' => IndexByte chars c || ContainsAny s' chars
  end.

(** [strings.Join(elems, sep)] *)
Fixpoint Join (elems : list string) (sep : string) : string :=
  match elems with
  | [] => ""
  | [e] => e
  | e :: rest => e +:+ sep +:+ Join rest sep
  end.

End strings.

(** ** Package [path/filepath] (Unix) *)

Module filepath.

Definition Separator : ascii := "/"%char.

Definition IsPathSeparator (c : ascii) : bool := Ascii.eqb c Separator.

(** The elements of a path: the maximal runs between separators, empty
    runs included, as [strings.Split(path, "/")] returns them. *)
Fixpoint elements (path : string) : list string :=
  match path with
  | EmptyString => [EmptyString]
  | String c rest =>
      if IsPathSeparator c then EmptyString :: elements rest
      else match elements rest with
           | [] => [String c EmptyString]
           | e :: es => String c e :: es
           end
  end.

Definition rooted (path : string) : bool :=
  match path with
  | String c _ => IsPathSeparator c
  | EmptyString => false
  end.

(** One turn of the loop of [Clean]: [out] is the output buffer as a
    stack of elements, innermost first.  An element [..] on top of the
    stack is one that could not be cancelled (the [dotdot] mark); a
    rooted path never has one. *)
Definition clean_step (rt : bool) (out : list string) (e : string) : list string :=
  if String.eqb e "" then out
  else if String.eqb e "." then out
  else if String.eqb e ".." then
    match out with
    | top :: below => if String.eqb top ".." then e :: out else below
    | [] => if rt then [] else [e]
    end
  else e :: out.

Definition clean_elements (rt : bool) (es : list string) : list string :=
  rev (fold_left (clean_step rt) es []).

(** Writes a cleaned element list back as a path. *)
Definition render (rt : bool) (out : list string) : string :=
  if rt then String Separator (strings.Join out "/")
  else match out with
       | [] => "."
       | _ => strings.Join out "/"
       end.

(** [filepath.Clean] *)
Definition Clean (path : string) : string :=
  if String.eqb path "" then "."
  else render (rooted path) (clean_elements (rooted path) (elements path)).

(** [filepath.Join]: leading empty elements are dropped, the rest is
    joined with the separator and cleaned. *)
Fixpoint Join (elem : list string) : string :=
  match elem with
  | [] => ""
  | e :: rest =>
      if String.eqb e "" then Join rest else Clean (strings.Join elem "/")
  end.

Fixpoint has_separator (path : string) : bool :=
  match path with
  | EmptyString => false
  | String c rest => IsPathSeparator c || has_separator rest
  end.

(** [path[:i+1]] where [i] is the index of the last separator
    ([i = -1] when there is none). *)
Fixpoint up_to_last_separator (path : string) : string :=
  match path with
  | EmptyString => EmptyString
  | String c rest =>
      if has_separator rest then String c (up_to_last_separator rest)
      else if IsPathSeparator c then String c EmptyString
      else EmptyString
  end.

(** [filepath.Dir] *)
Definition Dir (path : string) : string := Clean (up_to_last_separator path).

(** [filepath.Abs] with the working directory made explicit: the
    absolute location a path names, as a list of names from the root. *)
Definition abs_step (cur : list string) (e : string) : list string :=
  if String.eqb e "" then cur
  else if String.eqb e "." then cur
  else if String.eqb e ".." then removelast cur
  else cur ++ [e].

Definition Abs (cwd : list string) (path : string) : list string :=
  fold_left abs_step (elements path) (if rooted path then [] else cwd).

End filepath.

(** ** Package [os] on the idealised medium *)

Inductive Errno := ENOENT | EEXIST | ENOTDIR | EISDIR | ENOTEMPTY | EINVAL | EBUSY.

(** [*os.PathError] *)
Record PathError := mkPathError { Op : string; Path : string; Err : Errno }.

Inductive res (A : Type) : Type :=
| ok (a : A)
| fail (e : PathError).
Arguments ok {A} a.
Arguments fail {A} e.

Module os.

Inductive node :=
| Directory
| Regular (content : list byte).

(** The tree: every node but the root under its absolute location. *)
Record FS := mkFS { cwd : list string; nodes : gmap (list string) node }.

(** [*os.File]: an open file, by the node it refers to. *)
Record File := mkFile { name : string; loc : list string }.

Definition node_at (fs : FS) (q : list string) : option node :=
  match q with
  | [] => Some Directory
  | _ => nodes fs !! q
  end.

(** The node at the location a path names, reachable or not. *)
Definition peek (fs : FS) (path : string) : option node :=
  node_at fs (filepath.Abs (cwd fs) path).

(** Walks [rest] downwards from [cur]: every node passed through has to
    be a directory. *)
Fixpoint traverse (fs : FS) (cur rest : list string) : option Errno :=
  match rest with
  | [] => None
  | n :: rest' =>
      match node_at fs cur with
      | Some Directory => traverse fs (cur ++ [n]) rest'
      | Some (Regular _) => Some ENOTDIR
      | None => Some ENOENT
      end
  end.

(** Name resolution: the location a path names, which may be vacant. *)
Definition locate (fs : FS) (path : string) : Errno + list string :=
  if String.eqb path "" then inl ENOENT
  else
    let q := filepath.Abs (cwd fs) path in
    match traverse fs [] q with
    | Some e => inl e
    | None => inr q
    end.

(** Names of the nodes directly below [q]. *)
Definition entries (fs : FS) (q : list string) : list string :=
  omap (λ kv : list string * node,
          if decide (removelast kv.1 = q) then last kv.1 else None)
       (map_to_list (nodes fs)).

Definition put (fs : FS) (q : list string) (n : node) : FS :=
  mkFS (cwd fs) (<[q := n]> (nodes fs)).

Definition drop (fs : FS) (q : list string) : FS :=
  mkFS (cwd fs) (delete q (nodes fs)).

Definition Stat (fs : FS) (path : string) : res node :=
  match locate fs path with
  | inl e => fail (mkPathError "stat" path e)
  | inr q =>
      match node_at fs q with
      | Some n => ok n
      | None => fail (mkPathError "stat" path ENOENT)
      end
  end.

Definition Mkdir (fs : FS) (path : string) : res FS :=
  match locate fs path with
  | inl e => fail (mkPathError "mkdir" path e)
  | inr q =>
      match node_at fs q with
      | Some _ => fail (mkPathError "mkdir" path EEXIST)
      | None => ok (put fs q Directory)
      end
  end.

Fixpoint trim_separators (path : string) : string :=
  match path with
  | EmptyString => EmptyString
  | String c rest =>
      match trim_separators rest with
      | EmptyString =>
          if filepath.IsPathSeparator c then EmptyString else String c EmptyString
      | rest' => String c rest'
      end
  end.

(** The parent that [MkdirAll] recurses on: trailing separators and the
    last element are cut off, the separator before it stays. *)
Definition parent (path : string) : string :=
  filepath.up_to_last_separator (trim_separators path).

(** [os.MkdirAll]; [None] when the recursion budget is used up. *)
Fixpoint MkdirAll_rec (fuel : nat) (fs : FS) (path : string) : option (res FS) :=
  match Stat fs path with
  | ok Directory => Some (ok fs)
  | ok (Regular _) => Some (fail (mkPathError "mkdir" path ENOTDIR))
  | fail _ =>
      let above :=
        if String.eqb (parent path) "" then Some (ok fs)
        else match fuel with
             | O => None
             | S fuel' => MkdirAll_rec fuel' fs (parent path)
             end in
      match above with
      | None => None
      | Some (fail e) => Some (fail e)
      | Some (ok fs1) =>
          match Mkdir fs1 path with
          | ok fs2 => Some (ok fs2)
          | fail e =>
              match Stat fs1 path with
              | ok Directory => Some (ok fs1)
              | _ => Some (fail e)
              end
          end
      end
  end.

(** Each recursive call is on a strictly shorter path, so the length of
    the path is budget enough ([MkdirAll_rec_total] below). *)
Definition MkdirAll (fs : FS) (path : string) : res FS :=
  match MkdirAll_rec (String.length path) fs path with
  | Some r => r
  | None => fail (mkPathError "mkdir" path EINVAL)
  end.

(** [os.Create]: open for writing, create if absent, truncate. *)
Definition Create (fs : FS) (path : string) : res (File * FS) :=
  match locate fs path with
  | inl e => fail (mkPathError "open" path e)
  | inr q =>
      match node_at fs q with
      | Some Directory => fail (mkPathError "open" path EISDIR)
      | _ => ok (mkFile path q, put fs q (Regular []))
      end
  end.

(** [os.Open]: open for reading. *)
Definition Open (fs : FS) (path : string) : res File :=
  match locate fs path with
  | inl e => fail (mkPathError "open" path e)
  | inr q =>
      match node_at fs q with
      | Some _ => ok (mkFile path q)
      | None => fail (mkPathError "open" path ENOENT)
      end
  end.

Definition last_element (path : string) : string :=
  List.last (filepath.elements (trim_separators path)) "".

(** [os.Remove]: unlinks a file or removes an empty directory. *)
Definition Remove (fs : FS) (path : string) : res FS :=
  if String.eqb (last_element path) "." then fail (mkPathError "remove" path EINVAL)
  else if String.eqb (last_element path) ".." then fail (mkPathError "remove" path ENOTEMPTY)
  else
    match locate fs path with
    | inl e => fail (mkPathError "remove" path e)
    | inr q =>
        match q, node_at fs q with
        | [], _ => fail (mkPathError "remove" path EBUSY)
        | _, None => fail (mkPathError "remove" path ENOENT)
        | _, Some (Regular _) => ok (drop fs q)
        | _, Some Directory =>
            match entries fs q with
            | [] => ok (drop fs q)
            | _ => fail (mkPathError "remove" path ENOTEMPTY)
            end
        end
    end.

(** [os.ReadDir]; the order of the names is left open, the backend
    only counts them. *)
Definition ReadDir (fs : FS) (path : string) : res (list string) :=
  match locate fs path with
  | inl e => fail (mkPathError "open" path e)
  | inr q =>
      match node_at fs q with
      | Some Directory => ok (entries fs q)
      | Some (Regular _) => fail (mkPathError "readdirent" path ENOTDIR)
      | None => fail (mkPathError "open" path ENOENT)
      end
  end.

(** [File.Write]: the bytes go after what the handle wrote before. *)
Definition Write (fs : FS) (f : File) (data : list byte) : res FS :=
  match node_at fs (loc f) with
  | Some (Regular old) => ok (put fs (loc f) (Regular (old ++ data)))
  | Some Directory => fail (mkPathError "write" (name f) EISDIR)
  | None => fail (mkPathError "write" (name f) ENOENT)
  end.


End os.

(** ** Errors, contexts and streams *)

(** Go's [error] values as the backend builds them: [fmt.Errorf] with a
    plain message, [fmt.Errorf] wrapping a cause with [%w], and the errors
    that come from the collaborators. *)
Inductive error :=
| Errorf (msg : string)
| Wrapf (msg : string) (cause : error)
| OsError (e : PathError)
| Canceled
| DeadlineExceeded
| ReadError (msg : string).

(** [os.IsNotExist] *)
Definition IsNotExist (e : PathError) : bool :=
  match Err e with
  | ENOENT => true
  | _ => false
  end.

(** [context.Context] at the moment the operation looks at it: [Err()] is
    non-nil exactly when the channel [Done()] is closed. *)
Record Context := mkContext { ctx_Err : option error }.

(** An [io.Reader]: the bytes it delivers, then end of file or a failure. *)
Record Reader := mkReader { stream : list byte; failure : option error }.

(** ** Effects

    The operations run on a world made of the medium and a log of what
    they did to the lock, the context and the medium, oldest entry first. *)

Inductive call :=
| CallMkdirAll (path : string)
| CallCreate (path : string)
| CallOpen (path : string)
| CallRemove (path : string)
| CallReadDir (path : string)
| CallCopy (f : os.File)
| CallClose (f : os.File).

Inductive event :=
| Lock | Unlock | RLock | RUnlock
| Done
| IO (c : call).

Record World := mkWorld { fs : os.FS; trace : list event }.

Definition M (A : Type) : Type := World → A * World.

Definition ret {A} (a : A) : M A := λ w, (a, w).

Definition bind {A B} (m : M A) (k : A → M B) : M B :=
  λ w, let '(a, w') := m w in k a w'.

Notation "'do' x <- m ; k" := (bind m (λ x, k))
  (at level 10, x pattern, m at level 100, k at level 200).
Notation "m ;; k" := (bind m (λ _, k))
  (at level 100, k at level 200, right associativity).

Definition emit (e : event) : M unit :=
  λ w, (tt, mkWorld (fs w) (trace w ++ [e])).

(** A call that may change the medium. *)
Definition sys {A} (c : call) (f : os.FS → res (A * os.FS)) : M (res A) :=
  λ w, match f (fs w) with
       | ok (a, fs') => (ok a, mkWorld fs' (trace w ++ [IO c]))
       | fail e => (fail e, mkWorld (fs w) (trace w ++ [IO c]))
       end.

Definition keep {A} (f : os.FS → res A) (x : os.FS) : res (A * os.FS) :=
  match f x with
  | ok a => ok (a, x)
  | fail e => fail e
  end.

Definition change (f : os.FS → res os.FS) (x : os.FS) : res (unit * os.FS) :=
  match f x with
  | ok x' => ok (tt, x')
  | fail e => fail e
  end.

Definition os_MkdirAll (path : string) : M (res unit) :=
  sys (CallMkdirAll path) (change (λ x, os.MkdirAll x path)).
Definition os_Create (path : string) : M (res os.File) :=
  sys (CallCreate path) (λ x, os.Create x path).
Definition os_Open (path : string) : M (res os.File) :=
  sys (CallOpen path) (keep (λ x, os.Open x path)).
Definition os_Remove (path : string) : M (res unit) :=
  sys (CallRemove path) (change (λ x, os.Remove x path)).
Definition os_ReadDir (path : string) : M (res (list string)) :=
  sys (CallReadDir path) (keep (λ x, os.ReadDir x path)).
Definition file_Close (f : os.File) : M unit := emit (IO (CallClose f)).

(** [io.Copy(dst, src)]: everything [src] delivers is written to [dst];
    the result is the number of bytes written and the first error met. *)
Definition io_Copy (dst : os.File) (src : Reader) : M (Z * option error) :=
  do r <- sys (CallCopy dst) (change (λ x, os.Write x dst (stream src)));
  match r with
  | ok _ => ret (Z.of_nat (length (stream src)), failure src)
  | fail e => ret (0%Z, Some (OsError e))
  end.

(** [select { case <-ctx.Done(): ...; default: }] *)
Definition select_Done (ctx : Context) : M (option error) :=
  emit Done ;; ret (ctx_Err ctx).

(** ** The backend *)

Record Backend := mkBackend { basePath : string; closed : bool }.

Definition backslash : ascii := "092"%char.

Definition validateMessageID (b : Backend) (messageID : string) : option error :=
  if String.eqb messageID "" then Some (Errorf "messageID cannot be empty")
  else if strings.Contains messageID ".." then
    Some (Errorf "messageID cannot contain '..'")
  else if strings.ContainsAny messageID (String "/" (String backslash "")) then
    Some (Errorf "messageID cannot contain path separators")
  else if 255 <? String.length messageID then
    Some (Errorf "messageID too long (max 255 characters)")
  else None.

Definition getDataPath (b : Backend) (messageID : string) : string :=
  if 2 <=? String.length messageID then
    filepath.Join [basePath b; substring 0 2 messageID; messageID +:+ ".data"]
  else
    filepath.Join [basePath b; "misc"; messageID +:+ ".data"].

(** [cleanupEmptyDirs] calls itself after each directory it removed;
    [None] when the recursion budget is used up. *)
Fixpoint cleanupEmptyDirs_rec (fuel : nat) (b : Backend) (dir : string)
    (w : World) : option World :=
  if String.eqb dir (basePath b) then Some w
  else
    let '(entries, w1) := os_ReadDir dir w in
    match entries with
    | fail _ => Some w1
    | ok (_ :: _) => Some w1
    | ok [] =>
        let '(err, w2) := os_Remove dir w1 in
        match err with
        | fail _ => Some w2
        | ok _ =>
            match fuel with
            | O => None
            | S fuel' => cleanupEmptyDirs_rec fuel' b (filepath.Dir dir) w2
            end
        end
    end.

(** Each recursive call follows a removal, which leaves one node less on
    the medium, so the number of nodes is budget enough
    ([cleanupEmptyDirs_rec_total] below). *)
Definition cleanupEmptyDirs (b : Backend) (dir : string) : M unit :=
  λ w, match cleanupEmptyDirs_rec (size (os.nodes (fs w))) b dir w with
       | Some w' => (tt, w')
       | None => (tt, w)
       end.

Definition NewBackend (basePath : string) : M (option Backend * option error) :=
  do r <- os_MkdirAll basePath;
  match r with
  | fail err => ret (None, Some (Wrapf "failed to create base directory" (OsError err)))
  | ok _ => ret (Some (mkBackend basePath false), None)
  end.

Definition StoreData (b : Backend) (ctx : Context) (messageID : string)
    (data : Reader) : M (Z * option error) :=
  match validateMessageID b messageID with
  | Some err => ret (0%Z, Some err)
  | None =>
      emit Lock ;;
      do r <-
        (if closed b then ret (0%Z, Some (Errorf "backend is closed"))
         else
           do done <- select_Done ctx;
           match done with
           | Some err => ret (0%Z, Some err)
           | None =>
               let dataPath := getDataPath b messageID in
               do made <- os_MkdirAll (filepath.Dir dataPath);
               match made with
               | fail err =>
                   ret (0%Z, Some (Wrapf "failed to create data directory" (OsError err)))
               | ok _ =>
                   do created <- os_Create dataPath;
                   match created with
                   | fail err =>
                       ret (0%Z, Some (Wrapf "failed to create data file" (OsError err)))
                   | ok dataFile =>
                       do copied <- io_Copy dataFile data;
                       file_Close dataFile ;;
                       match copied with
                       | (_, Some err) =>
                           ret (0%Z, Some (Wrapf "failed to write data" err))
                       | (size, None) => ret (size, None)
                       end
                   end
               end
           end);
      emit Unlock ;;
      ret r
  end.

Definition GetDataReader (b : Backend) (ctx : Context) (messageID : string)
    : M (option os.File * option error) :=
  match validateMessageID b messageID with
  | Some err => ret (None, Some err)
  | None =>
      emit RLock ;;
      do r <-
        (if closed b then ret (None, Some (Errorf "backend is closed"))
         else
           do done <- select_Done ctx;
           match done with
           | Some err => ret (None, Some err)
           | None =>
               let dataPath := getDataPath b messageID in
               do opened <- os_Open dataPath;
               match opened with
               | fail err =>
                   if IsNotExist err then
                     ret (None, Some (Errorf ("message data not found: " +:+ messageID)))
                   else
                     ret (None, Some (Wrapf "failed to open data file" (OsError err)))
               | ok file => ret (Some file, None)
               end
           end);
      emit RUnlock ;;
      ret r
  end.

Definition GetDataWriter (b : Backend) (ctx : Context) (messageID : string)
    : M (option os.File * option error) :=
  match validateMessageID b messageID with
  | Some err => ret (None, Some err)
  | None =>
      emit Lock ;;
      do r <-
        (if closed b then ret (None, Some (Errorf "backend is closed"))
         else
           do done <- select_Done ctx;
           match done with
           | Some err => ret (None, Some err)
           | None =>
               let dataPath := getDataPath b messageID in
               do made <- os_MkdirAll (filepath.Dir dataPath);
               match made with
               | fail err =>
                   ret (None, Some (Wrapf "failed to create data directory" (OsError err)))
               | ok _ =>
                   do created <- os_Create dataPath;
                   match created with
                   | fail err =>
                       ret (None, Some (Wrapf "failed to create data file" (OsError err)))
                   | ok file => ret (Some file, None)
                   end
               end
           end);
      emit Unlock ;;
      ret r
  end.

Definition DeleteData (b : Backend) (ctx : Context) (messageID : string)
    : M (option error) :=
  match validateMessageID b messageID with
  | Some err => ret (Some err)
  | None =>
      emit Lock ;;
      do r <-
        (if closed b then ret (Some (Errorf "backend is closed"))
         else
           do done <- select_Done ctx;
           match done with
           | Some err => ret (Some err)
           | None =>
               let dataPath := getDataPath b messageID in
               do removed <- os_Remove dataPath;
               match removed with
               | fail err =>
                   if negb (IsNotExist err) then
                     ret (Some (Wrapf "failed to delete data file" (OsError err)))
                   else
                     cleanupEmptyDirs b (filepath.Dir dataPath) ;; ret None
               | ok _ =>
                   cleanupEmptyDirs b (filepath.Dir dataPath) ;; ret None
               end
           end);
      emit Unlock ;;
      ret r
  end.

Definition Close (b : Backend) : M (Backend * option error) :=
  emit Lock ;;
  let b' := mkBackend (basePath b) true in
  emit Unlock ;;
  ret (b', None).

(** ** The factory ([factory.go]) *)

Module factory.

Record Factory := mkFactory { basePath : string }.

Definition NewFactory (basePath : string) : Factory := mkFactory basePath.

Definition Create (f : Factory) : M (option Backend * option error) :=
  NewBackend (basePath f).

Definition Name (f : Factory) : string := "filesystem-data".

End factory.

(** ** Vocabulary of the properties *)

(** A plain name: a single path element that is neither empty nor one of
    the two special elements. *)
Definition plain (e : string) : Prop :=
  filepath.has_separator e = false ∧ e ≠ "" ∧ e ≠ "." ∧ e ≠ "..".

(** The elements of the cleaned base path. *)
Definition base_elements (base : string) : list string :=
  filepath.clean_elements (filepath.rooted base) (filepath.elements base).

(** The shard of an identifier, as [getDataPath] picks it. *)
Definition shard (messageID : string) : string :=
  if 2 <=? String.length messageID then substring 0 2 messageID else "misc".

(** The shape of a cleaned element list: the [..] elements that could not be
    cancelled (none when the path is rooted), then plain names. *)
Definition normal (rt : bool) (ds : list string) : Prop :=
  ∃ k names, ds = replicate k ".." ++ names ∧ Forall plain names ∧ (rt = true → k = 0).

(** What precedes the names directly below the directory [base] in a
    cleaned path: the cleaned base and a separator; nothing when the base
    is the working directory, the separator alone when it is the root. *)
Definition below (base : string) : string :=
  let c := filepath.Clean base in
  if String.eqb c "." then ""
  else if String.eqb c "/" then "/"
  else c +:+ "/".

(** The errors of [validateMessageID]. *)
Definition validation_error (e : error) : Prop :=
  e = Errorf "messageID cannot be empty" ∨
  e = Errorf "messageID cannot contain '..'" ∨
  e = Errorf "messageID cannot contain path separators" ∨
  e = Errorf "messageID too long (max 255 characters)".

(** The error of an operation on a closed backend. *)
Definition ErrClosed : error := Errorf "backend is closed".

(** The world after an operation that took the lock [lock], looked at the
    context once, before anything else, and did not look again. *)
Definition checked_once (lock : event) (w w' : World) : Prop :=
  ∃ rest, trace w' = trace w ++ [lock; Done] ++ rest ∧ ¬ In Done rest.

(** The world after an operation that only took and released its lock. *)
Definition only_locked (lock unlock : event) (w : World) : World :=
  mkWorld (fs w) (trace w ++ [lock; unlock]).

(** The world after an operation that took its lock, found the context
    done and released the lock. *)
Definition only_checked (lock unlock : event) (w : World) : World :=
  mkWorld (fs w) (trace w ++ [lock; Done; unlock]).

(** The blob stored for an identifier, if any. *)
Definition stored (x : os.FS) (b : Backend) (id : string) : option (list byte) :=
  match os.Stat x (getDataPath b id) with
  | ok (os.Regular content) => Some content
  | _ => None
  end.

(** The medium as the backend expects it for an identifier: the base
    directory exists, no regular file sits where the shard directory goes,
    and no directory sits where the blob goes. *)
Definition layout_ok (x : os.FS) (b : Backend) (id : string) : Prop :=
  os.Stat x (basePath b) = ok os.Directory ∧
  (∀ content, os.peek x (filepath.Dir (getDataPath b id)) ≠ Some (os.Regular content)) ∧
  os.peek x (getDataPath b id) ≠ Some os.Directory.

(** The locations of the base directory, of the shard directory and of the
    blob of an identifier. *)
Definition base_loc (x : os.FS) (b : Backend) : list string :=
  filepath.Abs (os.cwd x) (basePath b).

Definition shard_loc (x : os.FS) (b : Backend) (id : string) : list string :=
  base_loc x b ++ [shard id].

Definition blob_loc (x : os.FS) (b : Backend) (id : string) : list string :=
  shard_loc x b id ++ [id +:+ ".data"].

(** Nothing to remove at the blob path of an identifier: the name does not
    exist. *)
Definition gone (b : Backend) (id : string) (x : os.FS) : Prop :=
  os.Remove x (getDataPath b id) = fail (mkPathError "remove" (getDataPath b id) ENOENT).

(** Every node of [x] is still there in [x'], as it was. *)
Definition preserved (x x' : os.FS) : Prop :=
  ∀ q n, os.node_at x q = Some n → os.node_at x' q = Some n.

(** Whatever [x'] has and [x] had not is a directory. *)
Definition grown_by_directories (x x' : os.FS) : Prop :=
  ∀ q n, os.node_at x' q = Some n → os.node_at x q = Some n ∨ n = os.Directory.

(** The events of the lock. *)
Definition lock_event (e : event) : Prop :=
  e = Lock ∨ e = Unlock ∨ e = RLock ∨ e = RUnlock.

(** The world after an operation that took [lock] first, released it with
    [unlock] last and did not touch the lock in between. *)
Definition balanced (lock unlock : event) (w w' : World) : Prop :=
  ∃ mid, trace w' = trace w ++ lock :: mid ++ [unlock] ∧
         Forall (λ e, ¬ lock_event e) mid.

(** The blob of an identifier is the only entry of its shard directory. *)
Definition sole_entry (x : os.FS) (b : Backend) (id : string) : Prop :=
  ∀ k n, os.nodes x !! k = Some n → removelast k = shard_loc x b id →
         k = [] ∨ k = blob_loc x b id.

(** A regular file with the content [c] can be reached at the location [t]. *)
Definition file_at (x : os.FS) (t : list string) (c : list byte) : Prop :=
  os.traverse x [] t = None ∧ os.node_at x t = Some (os.Regular c).

(** ** Sample worlds *)

(** A medium with the empty directories [/var/spool/data] and
    [/var/spool/mail]; the working directory is the root. *)
Definition spool : os.FS :=
  os.mkFS []
    (<[ ["var"; "spool"; "data"] := os.Directory ]>
       (<[ ["var"; "spool"; "mail"] := os.Directory ]>
          (<[ ["var"; "spool"] := os.Directory ]>
             (<[ ["var"] := os.Directory ]> ∅)))).

Definition spool_world : World := mkWorld spool [].

(** The same medium with one blob, stored under the identifier [ab1]. *)
Definition spool_blob : os.FS :=
  os.put (os.put spool ["var"; "spool"; "data"; "ab"] os.Directory)
    ["var"; "spool"; "data"; "ab"; "ab1.data"] (os.Regular [x68; x69]).

(** And with a second blob in the same shard, under [ab2]. *)
Definition spool_pair : os.FS :=
  os.put spool_blob ["var"; "spool"; "data"; "ab"; "ab2.data"] (os.Regular [x21]).

Definition background : Context := mkContext None.

(** * Properties *)

(** ** The path functions on examples *)

Example Clean_ex1 : filepath.Clean "/tmp/data/" = "/tmp/data". Proof. reflexivity. Qed.
Example Clean_ex2 : filepath.Clean "a/../../b//c/." = "../b/c". Proof. reflexivity. Qed.
Example Clean_ex3 : filepath.Clean "/../a/b/../.." = "/". Proof. reflexivity. Qed.
Example Clean_ex4 : filepath.Clean "./" = ".". Proof. reflexivity. Qed.
Example Join_ex1 : filepath.Join ["/tmp/data/"; "ab"; "ab1.data"] = "/tmp/data/ab/ab1.data".
Proof. reflexivity. Qed.
Example Join_ex2 : filepath.Join [""; "ab"; "ab1.data"] = "ab/ab1.data". Proof. reflexivity. Qed.
Example Dir_ex1 : filepath.Dir "/tmp/data/ab" = "/tmp/data". Proof. reflexivity. Qed.
Example Dir_ex2 : filepath.Dir "ab" = ".". Proof. reflexivity. Qed.
Example Dir_ex3 : filepath.Dir "/" = "/". Proof. reflexivity. Qed.
Example Abs_ex1 : filepath.Abs ["home"; "u"] "../x/./y" = ["home"; "x"; "y"].
Proof. reflexivity. Qed.

(** ** Strings and path elements *)

Arguments String.append : simpl nomatch.

Lemma append_empty_r (s : string) : s +:+ "" = s.
Proof. induction s as [|c s IH]; simpl; [reflexivity | now rewrite IH]. Qed.

Lemma append_assoc (a b c : string) : (a +:+ b) +:+ c = a +:+ (b +:+ c).
Proof. induction a as [|x a IH]; simpl; [reflexivity | now rewrite IH]. Qed.

Lemma length_append (a b : string) :
  String.length (a +:+ b) = String.length a + String.length b.
Proof. induction a as [|x a IH]; simpl; [reflexivity | now rewrite IH]. Qed.

Lemma append_eq_empty (a b : string) : a +:+ b = "" → a = "" ∧ b = "".
Proof. destruct a; simpl; [auto | discriminate]. Qed.

Lemma has_separator_append (a b : string) :
  filepath.has_separator (a +:+ b) =
  filepath.has_separator a || filepath.has_separator b.
Proof.
  induction a as [|x a IH]; simpl; [reflexivity|].
  now rewrite IH, orb_assoc.
Qed.

Lemma elements_not_nil (p : string) : filepath.elements p ≠ [].
Proof.
  destruct p as [|c p]; simpl; [discriminate|].
  destruct (filepath.IsPathSeparator c); [discriminate|].
  destruct (filepath.elements p); discriminate.
Qed.

Lemma elements_append_sep (a b : string) :
  filepath.elements (a +:+ String "/" b) = filepath.elements a ++ filepath.elements b.
Proof.
  induction a as [|c a IH]; simpl; [reflexivity|].
  rewrite IH. destruct (filepath.IsPathSeparator c); [reflexivity|].
  pose proof (elements_not_nil a) as Hne.
  destruct (filepath.elements a); [contradiction | reflexivity].
Qed.

Lemma elements_no_separator (e : string) :
  filepath.has_separator e = false → filepath.elements e = [e].
Proof.
  induction e as [|c e IH]; simpl; [reflexivity|].
  intros [Hc He]%orb_false_elim. rewrite Hc, (IH He). reflexivity.
Qed.

Lemma elements_free (p : string) :
  Forall (λ e, filepath.has_separator e = false) (filepath.elements p).
Proof.
  induction p as [|c p IH]; simpl; [repeat constructor|].
  destruct (filepath.IsPathSeparator c) eqn:Hc; [constructor; [reflexivity | exact IH]|].
  destruct (filepath.elements p) as [|e es]; [repeat constructor; simpl; now rewrite Hc|].
  inversion IH; subst. constructor; [simpl; rewrite Hc; assumption | assumption].
Qed.

Lemma Join_snoc (ds : list string) (f : string) :
  ds ≠ [] → strings.Join (ds ++ [f]) "/" = strings.Join ds "/" +:+ String "/" f.
Proof.
  induction ds as [|d ds IH]; [contradiction|]. intros _.
  destruct ds as [|d' ds]; [reflexivity|].
  change (strings.Join ((d :: d' :: ds) ++ [f]) "/")
    with (d +:+ "/" +:+ strings.Join ((d' :: ds) ++ [f]) "/").
  rewrite IH by discriminate.
  change (strings.Join (d :: d' :: ds) "/")
    with (d +:+ "/" +:+ strings.Join (d' :: ds) "/").
  now rewrite !append_assoc.
Qed.

Lemma elements_Join (ds : list string) :
  ds ≠ [] → Forall (λ e, filepath.has_separator e = false) ds →
  filepath.elements (strings.Join ds "/") = ds.
Proof.
  induction ds as [|d ds IH]; [contradiction|]. intros _ Hfree.
  inversion Hfree as [|? ? Hd Hds]; subst.
  destruct ds as [|d' ds]; [now apply elements_no_separator|].
  change (strings.Join (d :: d' :: ds) "/")
    with (d +:+ String "/" (strings.Join (d' :: ds) "/")).
  rewrite elements_append_sep, (elements_no_separator d Hd), IH by (discriminate || assumption).
  reflexivity.
Qed.

Lemma rooted_append (a b : string) :
  a ≠ "" → filepath.rooted (a +:+ b) = filepath.rooted a.
Proof. destruct a; [congruence | reflexivity]. Qed.

Lemma rooted_no_separator (e : string) :
  filepath.has_separator e = false → filepath.rooted e = false.
Proof. destruct e; simpl; [reflexivity|]. now intros [? _]%orb_false_elim. Qed.

Lemma Join_cons (d : string) (ds : list string) :
  ds ≠ [] → strings.Join (d :: ds) "/" = d +:+ String "/" (strings.Join ds "/").
Proof. destruct ds; [contradiction | reflexivity]. Qed.

Lemma Join_not_empty (ds : list string) :
  Forall plain ds → ds ≠ [] → strings.Join ds "/" ≠ "".
Proof.
  destruct ds as [|d ds]; [contradiction|]. intros Hall _.
  inversion Hall as [|? ? (_ & Hd & _) _]; subst.
  destruct ds; simpl; [assumption|].
  intros [? _]%append_eq_empty. contradiction.
Qed.

Lemma plain_free (ds : list string) :
  Forall plain ds → Forall (λ e, filepath.has_separator e = false) ds.
Proof. intros H. eapply Forall_impl; [exact H|]. now intros e [? _]. Qed.

(** ** [filepath.Clean] on plain names *)

Lemma clean_step_plain (rt : bool) (out : list string) (e : string) :
  plain e → filepath.clean_step rt out e = e :: out.
Proof.
  intros (_ & H1 & H2 & H3). unfold filepath.clean_step.
  apply String.eqb_neq in H1, H2, H3. now rewrite H1, H2, H3.
Qed.

Lemma fold_clean_plain (rt : bool) (names out : list string) :
  Forall plain names →
  fold_left (filepath.clean_step rt) names out = rev names ++ out.
Proof.
  revert out. induction names as [|e names IH]; intros out Hall; [reflexivity|].
  inversion Hall; subst. simpl.
  rewrite clean_step_plain, IH by assumption.
  now rewrite <- app_assoc.
Qed.

Lemma clean_elements_app_plain (rt : bool) (es names : list string) :
  Forall plain names →
  filepath.clean_elements rt (es ++ names) = filepath.clean_elements rt es ++ names.
Proof.
  intros Hall. unfold filepath.clean_elements.
  rewrite fold_left_app, fold_clean_plain by assumption.
  now rewrite rev_app_distr, rev_involutive.
Qed.

Lemma clean_elements_empty (rt : bool) : filepath.clean_elements rt [""] = [].
Proof. reflexivity. Qed.

(** [filepath.Join] of a base path and plain names below it. *)
Lemma Join_under (base : string) (names : list string) :
  names ≠ [] → Forall plain names →
  filepath.Join (base :: names) =
  filepath.render (filepath.rooted base) (base_elements base ++ names).
Proof.
  intros Hne Hall. unfold base_elements.
  pose proof (Join_not_empty names Hall Hne) as Hjoin.
  pose proof (elements_Join names Hne (plain_free names Hall)) as Hel.
  destruct (String.eqb_spec base "") as [->|Hbase].
  - change (filepath.Join ("" :: names)) with (filepath.Join names).
    destruct names as [|n names]; [contradiction|].
    inversion Hall as [|? ? Hn _]; subst.
    destruct Hn as (Hfree & Hn & _).
    unfold filepath.Join. apply String.eqb_neq in Hn as Hn'. rewrite Hn'.
    unfold filepath.Clean. apply String.eqb_neq in Hjoin as ->.
    assert (filepath.rooted (strings.Join (n :: names) "/") = false) as ->.
    { destruct names; [now apply rooted_no_separator|].
      rewrite Join_cons, rooted_append by (discriminate || assumption).
      now apply rooted_no_separator. }
    rewrite Hel. simpl filepath.rooted.
    change (filepath.elements "") with ([""] : list string).
    rewrite clean_elements_empty. simpl app.
    change (n :: names) with ([] ++ n :: names) at 1.
    rewrite clean_elements_app_plain by assumption. reflexivity.
  - unfold filepath.Join. apply String.eqb_neq in Hbase as Hbase'. rewrite Hbase'.
    rewrite Join_cons by assumption.
    unfold filepath.Clean.
    assert (base +:+ String "/" (strings.Join names "/") ≠ "") as Hx
      by (intros [? _]%append_eq_empty; contradiction).
    apply String.eqb_neq in Hx as ->.
    rewrite rooted_append, elements_append_sep, Hel by assumption.
    now rewrite clean_elements_app_plain.
Qed.

(** ** Cleaned paths are fixed points of [filepath.Clean] *)

Lemma clean_step_dotdot (k : nat) :
  filepath.clean_step false (replicate k "..") ".." = replicate (S k) "..".
Proof. destruct k; reflexivity. Qed.

Lemma fold_clean_dotdot (k j : nat) :
  fold_left (filepath.clean_step false) (replicate k "..") (replicate j "..") =
  replicate (k + j) "..".
Proof.
  revert j. induction k as [|k IH]; intros j; [reflexivity|].
  simpl fold_left. rewrite clean_step_dotdot, IH. f_equal. lia.
Qed.

Lemma rev_replicate {A} (k : nat) (x : A) : rev (replicate k x) = replicate k x.
Proof.
  induction k as [|k IH]; [reflexivity|]. simpl. rewrite IH.
  clear IH. induction k as [|k IH]; [reflexivity|]. simpl. now rewrite IH.
Qed.

Lemma clean_elements_normal (rt : bool) (ds : list string) :
  normal rt ds → filepath.clean_elements rt ds = ds.
Proof.
  intros (k & names & -> & Hall & Hk). unfold filepath.clean_elements.
  rewrite fold_left_app.
  assert (fold_left (filepath.clean_step rt) (replicate k "..") [] = replicate k "..") as ->.
  { destruct rt; [rewrite Hk by reflexivity; reflexivity|].
    change ([] : list string) with (replicate 0 "..").
    rewrite fold_clean_dotdot. f_equal. lia. }
  rewrite fold_clean_plain by assumption.
  now rewrite rev_app_distr, rev_involutive, rev_replicate.
Qed.

Lemma stack_normal (rt : bool) (es : list string) (k : nat) (names : list string) :
  Forall (λ e, filepath.has_separator e = false) es →
  Forall plain names → (rt = true → k = 0) →
  ∃ k' names', fold_left (filepath.clean_step rt) es (names ++ replicate k "..") =
               names' ++ replicate k' ".." ∧
               Forall plain names' ∧ (rt = true → k' = 0).
Proof.
  revert k names. induction es as [|e es IH]; intros k names Hfree Hall Hk.
  { exists k, names. auto. }
  inversion Hfree as [|? ? He Hes]; subst. simpl fold_left.
  unfold filepath.clean_step at 2.
  destruct (String.eqb_spec e "") as [->|H1]; [now apply IH|].
  destruct (String.eqb_spec e ".") as [->|H2]; [now apply IH|].
  destruct (String.eqb_spec e "..") as [->|H3].
  - destruct names as [|n names].
    + destruct k as [|k].
      * destruct rt; [now apply (IH 0 [])|].
        now apply (IH 1 []).
      * simpl. destruct rt; [specialize (Hk eq_refl); discriminate|].
        now apply (IH (S (S k)) []).
    + inversion Hall as [|? ? Hn Hns]; subst. simpl.
      destruct Hn as (Hn0 & Hn1 & Hn2 & Hn3).
      apply String.eqb_neq in Hn3 as ->.
      now apply IH.
  - apply (IH k (e :: names)); [assumption | | assumption].
    constructor; [repeat split; assumption | assumption].
Qed.

Lemma clean_elements_is_normal (rt : bool) (es : list string) :
  Forall (λ e, filepath.has_separator e = false) es →
  normal rt (filepath.clean_elements rt es).
Proof.
  intros Hfree.
  destruct (stack_normal rt es 0 [] Hfree (Forall_nil_2 _) (λ _, eq_refl))
    as (k & names & Heq & Hall & Hk).
  simpl in Heq. unfold filepath.clean_elements. rewrite Heq.
  exists k, (rev names). split; [|split; [|assumption]].
  - now rewrite rev_app_distr, rev_replicate.
  - now apply Forall_rev.
Qed.

Lemma base_elements_normal (base : string) :
  normal (filepath.rooted base) (base_elements base).
Proof. apply clean_elements_is_normal, elements_free. Qed.

Lemma normal_app (rt : bool) (ds names : list string) :
  normal rt ds → Forall plain names → normal rt (ds ++ names).
Proof.
  intros (k & ns & -> & Hall & Hk) Hnames.
  exists k, (ns ++ names). split; [now rewrite app_assoc|].
  split; [now apply Forall_app | assumption].
Qed.

Lemma normal_solid (rt : bool) (ds : list string) :
  normal rt ds → Forall (λ e, filepath.has_separator e = false ∧ e ≠ "") ds.
Proof.
  intros (k & ns & -> & Hall & _). apply Forall_app. split.
  - apply Forall_replicate. split; [reflexivity | discriminate].
  - eapply Forall_impl; [exact Hall|]. now intros e (? & ? & _).
Qed.

Lemma normal_no_dot (rt : bool) (ds : list string) :
  normal rt ds → Forall (λ e, e ≠ "" ∧ e ≠ ".") ds.
Proof.
  intros (k & ns & -> & Hall & _). apply Forall_app. split.
  - apply Forall_replicate. split; discriminate.
  - eapply Forall_impl; [exact Hall|]. now intros e (? & ? & ? & _).
Qed.

Lemma render_snoc (rt : bool) (ds : list string) (f : string) :
  ds ≠ [] → filepath.render rt (ds ++ [f]) = filepath.render rt ds +:+ String "/" f.
Proof.
  intros Hne. unfold filepath.render. destruct rt.
  - now rewrite Join_snoc.
  - rewrite Join_snoc by assumption.
    destruct ds; [contradiction | reflexivity].
Qed.

Lemma render_not_empty (rt : bool) (ds : list string) :
  normal rt ds → filepath.render rt ds ≠ "".
Proof.
  intros Hn%normal_solid. unfold filepath.render. destruct rt; [discriminate|].
  destruct ds as [|d ds]; [discriminate|].
  inversion Hn as [|? ? [_ Hd] _]; subst.
  destruct ds; simpl; [assumption|]. intros [? _]%append_eq_empty. contradiction.
Qed.

Lemma rooted_render (rt : bool) (ds : list string) :
  ds ≠ [] → normal rt ds → filepath.rooted (filepath.render rt ds) = rt.
Proof.
  intros Hne Hn%normal_solid. unfold filepath.render. destruct rt; [reflexivity|].
  destruct ds as [|d ds]; [contradiction|].
  inversion Hn as [|? ? [Hfree Hd] _]; subst.
  destruct ds; [now apply rooted_no_separator|].
  rewrite Join_cons, rooted_append by (discriminate || assumption).
  now apply rooted_no_separator.
Qed.

Lemma elements_render (rt : bool) (ds : list string) :
  ds ≠ [] → normal rt ds →
  filepath.elements (filepath.render rt ds) = if rt then "" :: ds else ds.
Proof.
  intros Hne Hn%normal_solid.
  assert (Forall (λ e, filepath.has_separator e = false) ds) as Hfree
    by (eapply Forall_impl; [exact Hn|]; now intros e [? _]).
  unfold filepath.render. destruct rt.
  - simpl. now rewrite elements_Join.
  - destruct ds; [contradiction|]. now apply elements_Join.
Qed.

Lemma clean_elements_skip_l (rt : bool) (es : list string) :
  filepath.clean_elements rt ("" :: es) = filepath.clean_elements rt es.
Proof. reflexivity. Qed.

Lemma clean_elements_skip_r (rt : bool) (es : list string) :
  filepath.clean_elements rt (es ++ [""]) = filepath.clean_elements rt es.
Proof. unfold filepath.clean_elements. now rewrite fold_left_app. Qed.

Lemma Clean_render (rt : bool) (ds : list string) :
  normal rt ds → filepath.Clean (filepath.render rt ds) = filepath.render rt ds.
Proof.
  intros Hn. destruct ds as [|d ds]; [destruct rt; reflexivity|].
  unfold filepath.Clean.
  pose proof (render_not_empty rt _ Hn) as Hne. apply String.eqb_neq in Hne as ->.
  rewrite rooted_render, elements_render by (discriminate || assumption).
  destruct rt; [rewrite clean_elements_skip_l|]; now rewrite clean_elements_normal.
Qed.

Lemma Clean_render_slash (rt : bool) (ds : list string) :
  ds ≠ [] → normal rt ds →
  filepath.Clean (filepath.render rt ds +:+ "/") = filepath.render rt ds.
Proof.
  intros Hne Hn. unfold filepath.Clean.
  pose proof (render_not_empty rt _ Hn) as Hr.
  assert (filepath.render rt ds +:+ "/" ≠ "") as Hx
    by (intros [? _]%append_eq_empty; contradiction).
  apply String.eqb_neq in Hx as ->.
  rewrite rooted_append, rooted_render by assumption.
  rewrite elements_append_sep, elements_render by assumption.
  change (filepath.elements "") with ([""] : list string).
  rewrite clean_elements_skip_r.
  destruct rt; [rewrite clean_elements_skip_l|]; now rewrite clean_elements_normal.
Qed.

(** ** [filepath.Dir] *)

Lemma up_to_last_separator_none (f : string) :
  filepath.has_separator f = false → filepath.up_to_last_separator f = "".
Proof.
  destruct f as [|c f]; [reflexivity|]. simpl.
  intros [Hc Hf]%orb_false_elim. now rewrite Hf, Hc.
Qed.

Lemma up_to_last_separator_append (x f : string) :
  filepath.has_separator f = false →
  filepath.up_to_last_separator (x +:+ String "/" f) = x +:+ "/".
Proof.
  intros Hf. induction x as [|c x IH]; simpl.
  - now rewrite Hf.
  - rewrite has_separator_append. simpl. rewrite orb_true_r. now rewrite IH.
Qed.

Lemma Dir_render (rt : bool) (ds : list string) (f : string) :
  normal rt ds → plain f →
  filepath.Dir (filepath.render rt (ds ++ [f])) = filepath.render rt ds.
Proof.
  intros Hn (Hf & _). unfold filepath.Dir.
  destruct ds as [|d ds].
  - destruct rt; simpl.
    + now rewrite Hf.
    + now rewrite up_to_last_separator_none.
  - rewrite render_snoc, up_to_last_separator_append by (discriminate || assumption).
    now apply Clean_render_slash.
Qed.

(** ** [filepath.Abs]: cleaning a path does not change what it names *)

Lemma abs_step_plain (cur : list string) (e : string) :
  e ≠ "" → e ≠ "." → e ≠ ".." → filepath.abs_step cur e = cur ++ [e].
Proof.
  intros H1%String.eqb_neq H2%String.eqb_neq H3%String.eqb_neq.
  unfold filepath.abs_step. now rewrite H1, H2, H3.
Qed.

Lemma fold_abs_plain (names cur : list string) :
  Forall plain names → fold_left filepath.abs_step names cur = cur ++ names.
Proof.
  revert cur. induction names as [|n names IH]; intros cur Hall; simpl.
  - now rewrite app_nil_r.
  - inversion Hall as [|? ? (_ & H1 & H2 & H3) Hns]; subst.
    rewrite abs_step_plain, IH by assumption. now rewrite <- app_assoc.
Qed.

Lemma fold_abs_clean (rt : bool) (es out start : list string) :
  (rt = true → start = []) →
  Forall (λ e, e ≠ "" ∧ e ≠ ".") out →
  fold_left filepath.abs_step (rev (fold_left (filepath.clean_step rt) es out)) start =
  fold_left filepath.abs_step es (fold_left filepath.abs_step (rev out) start).
Proof.
  intros Hstart. revert out. induction es as [|e es IH]; intros out Hout; [reflexivity|].
  simpl fold_left at 2 3. unfold filepath.clean_step at 2. unfold filepath.abs_step at 3.
  destruct (String.eqb_spec e "") as [->|H1]; [now apply IH|].
  destruct (String.eqb_spec e ".") as [->|H2]; [now apply IH|].
  destruct (String.eqb_spec e "..") as [->|H3].
  - destruct out as [|top below].
    + destruct rt.
      * rewrite IH by constructor. simpl. now rewrite (Hstart eq_refl).
      * rewrite IH by (repeat constructor; discriminate). reflexivity.
    + inversion Hout as [|? ? [Ht1 Ht2] Hbelow]; subst.
      destruct (String.eqb_spec top "..") as [->|Ht3].
      * rewrite IH by (constructor; [split; discriminate | assumption]).
        simpl rev. now rewrite !fold_left_app.
      * rewrite IH by assumption. simpl rev. rewrite fold_left_app. simpl.
        now rewrite abs_step_plain, removelast_last.
  - rewrite IH by (constructor; [split; assumption | assumption]).
    simpl rev. rewrite fold_left_app. simpl.
    now rewrite abs_step_plain.
Qed.

Lemma Abs_base_elements (cwd : list string) (base : string) :
  fold_left filepath.abs_step (base_elements base)
    (if filepath.rooted base then [] else cwd) = filepath.Abs cwd base.
Proof.
  unfold base_elements, filepath.clean_elements, filepath.Abs.
  rewrite fold_abs_clean; [reflexivity | | constructor].
  now intros ->.
Qed.

Lemma Abs_render (cwd : list string) (rt : bool) (ds : list string) :
  normal rt ds →
  filepath.Abs cwd (filepath.render rt ds) =
  fold_left filepath.abs_step ds (if rt then [] else cwd).
Proof.
  intros Hn. destruct ds as [|d ds]; [destruct rt; reflexivity|].
  unfold filepath.Abs.
  rewrite rooted_render, elements_render by (discriminate || assumption).
  destruct rt; reflexivity.
Qed.

Lemma Abs_Clean (cwd : list string) (path : string) :
  filepath.Abs cwd (filepath.Clean path) = filepath.Abs cwd path.
Proof.
  unfold filepath.Clean. destruct (String.eqb_spec path "") as [->|Hne]; [reflexivity|].
  rewrite Abs_render by apply clean_elements_is_normal, elements_free.
  apply Abs_base_elements.
Qed.

(** What a path below the base names: the location of the base, then the
    plain names. *)
Lemma Abs_under (cwd : list string) (base : string) (names : list string) :
  Forall plain names →
  filepath.Abs cwd (filepath.render (filepath.rooted base) (base_elements base ++ names)) =
  filepath.Abs cwd base ++ names.
Proof.
  intros Hall.
  rewrite Abs_render by (apply normal_app; [apply base_elements_normal | assumption]).
  rewrite fold_left_app, Abs_base_elements. now apply fold_abs_plain.
Qed.

(** ** Valid identifiers give plain names *)

Lemma validateMessageID_None (b : Backend) (messageID : string) :
  validateMessageID b messageID = None →
  messageID ≠ "" ∧
  strings.Contains messageID ".." = false ∧
  strings.ContainsAny messageID (String "/" (String backslash "")) = false ∧
  String.length messageID ≤ 255.
Proof.
  unfold validateMessageID.
  destruct (String.eqb_spec messageID "") as [|Hne]; [discriminate|].
  destruct (strings.Contains messageID ".."); [discriminate|].
  destruct (strings.ContainsAny messageID _); [discriminate|].
  destruct (Nat.ltb_spec 255 (String.length messageID)); [discriminate|].
  intros _. repeat split; [assumption | lia].
Qed.

Lemma ContainsAny_separator (s : string) :
  strings.ContainsAny s (String "/" (String backslash "")) = false →
  filepath.has_separator s = false.
Proof.
  induction s as [|c s IH]; [reflexivity|].
  change (strings.ContainsAny (String c s) (String "/" (String backslash "")))
    with ((Ascii.eqb "/" c || (Ascii.eqb backslash c || false))
          || strings.ContainsAny s (String "/" (String backslash ""))).
  change (filepath.has_separator (String c s))
    with (Ascii.eqb c "/" || filepath.has_separator s).
  intros [Hc Hs]%orb_false_elim. rewrite (IH Hs), orb_false_r.
  apply orb_false_elim in Hc as [Hc _].
  now rewrite Ascii.eqb_sym.
Qed.

Lemma has_separator_substring (s : string) (n m : nat) :
  filepath.has_separator s = false → filepath.has_separator (substring n m s) = false.
Proof.
  revert n m. induction s as [|c s IH]; intros n m; simpl.
  - destruct n, m; reflexivity.
  - intros [Hc Hs]%orb_false_elim. destruct n as [|n].
    + destruct m as [|m]; [reflexivity|]. simpl. now rewrite Hc, IH.
    + now apply IH.
Qed.

Lemma length_substring_prefix (s : string) (m : nat) :
  m ≤ String.length s → String.length (substring 0 m s) = m.
Proof.
  revert m. induction s as [|c s IH]; intros [|m]; simpl; try reflexivity; try lia.
  intros H. rewrite IH; lia.
Qed.

Lemma substring_dotdot (s : string) :
  substring 0 2 s = ".." → strings.Contains s ".." = true.
Proof.
  destruct s as [|a [|c s]]; try discriminate. simpl.
  destruct s; intros [= -> ->]; reflexivity.
Qed.

Lemma plain_shard (b : Backend) (messageID : string) :
  validateMessageID b messageID = None → plain (shard messageID).
Proof.
  intros (Hne & Hdd & Hsep%ContainsAny_separator & _)%validateMessageID_None.
  unfold shard. destruct (Nat.leb_spec 2 (String.length messageID)) as [Hlen|Hlen].
  - pose proof (length_substring_prefix messageID 2 Hlen) as Hl.
    repeat split.
    + now apply has_separator_substring.
    + intros E. now rewrite E in Hl.
    + intros E. now rewrite E in Hl.
    + intros E%substring_dotdot. congruence.
  - repeat split; discriminate.
Qed.

Lemma plain_file (b : Backend) (messageID : string) :
  validateMessageID b messageID = None → plain (messageID +:+ ".data").
Proof.
  intros (Hne & Hdd & Hsep%ContainsAny_separator & _)%validateMessageID_None.
  assert (∀ t, String.length t < 5 → messageID +:+ ".data" ≠ t) as Hlen.
  { intros t Ht E. rewrite <- E, length_append in Ht. simpl in Ht. lia. }
  repeat split.
  - rewrite has_separator_append, Hsep. reflexivity.
  - apply Hlen. simpl. lia.
  - apply Hlen. simpl. lia.
  - apply Hlen. simpl. lia.
Qed.

Lemma plain_names (b : Backend) (messageID : string) :
  validateMessageID b messageID = None →
  Forall plain [shard messageID; messageID +:+ ".data"].
Proof.
  intros Hv. apply Forall_cons_2; [now apply (plain_shard b)|].
  apply Forall_cons_2; [now apply (plain_file b) | apply Forall_nil_2].
Qed.

Lemma plain_shard_names (b : Backend) (messageID : string) :
  validateMessageID b messageID = None → Forall plain [shard messageID].
Proof.
  intros Hv. apply Forall_cons_2; [now apply (plain_shard b) | apply Forall_nil_2].
Qed.

(** ** The derived path *)

Lemma getDataPath_Join (b : Backend) (messageID : string) :
  getDataPath b messageID =
  filepath.Join [basePath b; shard messageID; messageID +:+ ".data"].
Proof. unfold getDataPath, shard. now destruct (2 <=? String.length messageID). Qed.

Lemma getDataPath_render (b : Backend) (messageID : string) :
  validateMessageID b messageID = None →
  getDataPath b messageID =
  filepath.render (filepath.rooted (basePath b))
    (base_elements (basePath b) ++ [shard messageID; messageID +:+ ".data"]).
Proof.
  intros Hv. rewrite getDataPath_Join. apply Join_under; [discriminate|].
  now apply (plain_names b).
Qed.

Lemma Dir_getDataPath (b : Backend) (messageID : string) :
  validateMessageID b messageID = None →
  filepath.Dir (getDataPath b messageID) =
  filepath.render (filepath.rooted (basePath b))
    (base_elements (basePath b) ++ [shard messageID]).
Proof.
  intros Hv. rewrite getDataPath_render by assumption.
  change [shard messageID; messageID +:+ ".data"]
    with ([shard messageID] ++ [messageID +:+ ".data"]).
  rewrite app_assoc. apply Dir_render; [|eapply plain_file; eassumption].
  apply normal_app; [apply base_elements_normal|].
  now apply (plain_shard_names b).
Qed.

Lemma Abs_getDataPath (cwd : list string) (b : Backend) (messageID : string) :
  validateMessageID b messageID = None →
  filepath.Abs cwd (getDataPath b messageID) =
  filepath.Abs cwd (basePath b) ++ [shard messageID; messageID +:+ ".data"].
Proof.
  intros Hv. rewrite getDataPath_render by assumption. apply Abs_under.
  now apply (plain_names b).
Qed.

Lemma Abs_Dir_getDataPath (cwd : list string) (b : Backend) (messageID : string) :
  validateMessageID b messageID = None →
  filepath.Abs cwd (filepath.Dir (getDataPath b messageID)) =
  filepath.Abs cwd (basePath b) ++ [shard messageID].
Proof.
  intros Hv. rewrite Dir_getDataPath by assumption. apply Abs_under.
  now apply (plain_shard_names b).
Qed.

Lemma Clean_base (base : string) :
  filepath.Clean base = filepath.render (filepath.rooted base) (base_elements base).
Proof.
  unfold filepath.Clean. now destruct (String.eqb_spec base "") as [->|].
Qed.

Lemma Join_app (ds names : list string) :
  ds ≠ [] → names ≠ [] →
  strings.Join (ds ++ names) "/" =
  strings.Join ds "/" +:+ String "/" (strings.Join names "/").
Proof.
  intros Hds Hnames. induction ds as [|d ds IH]; [contradiction|].
  destruct ds as [|d' ds]; [now apply Join_cons|].
  change ((d :: d' :: ds) ++ names) with (d :: (d' :: ds) ++ names).
  rewrite Join_cons by discriminate. rewrite IH by discriminate.
  rewrite (Join_cons d (d' :: ds)) by discriminate.
  now rewrite append_assoc.
Qed.

Lemma render_app (rt : bool) (ds names : list string) :
  ds ≠ [] → names ≠ [] →
  filepath.render rt (ds ++ names) =
  filepath.render rt ds +:+ String "/" (strings.Join names "/").
Proof.
  intros Hds Hnames. unfold filepath.render. rewrite Join_app by assumption.
  destruct rt; [reflexivity|].
  destruct ds; [contradiction | reflexivity].
Qed.

Lemma render_neither (rt : bool) (ds : list string) :
  ds ≠ [] → normal rt ds →
  filepath.render rt ds ≠ "." ∧ filepath.render rt ds ≠ "/".
Proof.
  intros Hne Hn.
  pose proof (elements_render rt ds Hne Hn) as Hel.
  pose proof (rooted_render rt ds Hne Hn) as Hrt.
  pose proof (normal_no_dot rt ds Hn) as Hdot.
  split; intros E; rewrite E in Hel, Hrt; simpl in Hel, Hrt; subst rt.
  - subst ds. inversion Hdot as [|? ? [_ H] _]. congruence.
  - injection Hel as <-. inversion Hdot as [|? ? [H _] _]. congruence.
Qed.

Lemma render_below (base : string) (names : list string) :
  names ≠ [] →
  filepath.render (filepath.rooted base) (base_elements base ++ names) =
  below base +:+ strings.Join names "/".
Proof.
  intros Hnames. unfold below. rewrite Clean_base.
  pose proof (base_elements_normal base) as Hn.
  destruct (base_elements base) as [|d ds] eqn:Hbe.
  - destruct (filepath.rooted base); simpl.
    + reflexivity.
    + destruct names; [contradiction | reflexivity].
  - destruct (render_neither _ (d :: ds) ltac:(discriminate) Hn) as [H1 H2].
    apply String.eqb_neq in H1 as ->. apply String.eqb_neq in H2 as ->.
    rewrite render_app by (discriminate || assumption).
    now rewrite append_assoc.
Qed.

Lemma length_substring_short (s : string) (m : nat) :
  String.length s < m → substring 0 m s = s.
Proof.
  revert m. induction s as [|c s IH]; intros [|m]; simpl; try reflexivity; try lia.
  intros H. rewrite IH; [reflexivity | lia].
Qed.

Lemma shard_prefix (id id' : string) :
  substring 0 2 id = substring 0 2 id' → shard id = shard id'.
Proof.
  intros E. unfold shard.
  destruct (Nat.leb_spec 2 (String.length id)) as [H|H];
    destruct (Nat.leb_spec 2 (String.length id')) as [H'|H']; try reflexivity;
    try assumption.
  - pose proof (length_substring_prefix id 2 H) as L.
    rewrite E, (length_substring_short id' 2 H') in L. lia.
  - pose proof (length_substring_prefix id' 2 H') as L.
    rewrite <- E, (length_substring_short id 2 H) in L. lia.
Qed.

(** ** Path derivation (C2, C10) *)

(** C2. The derived path is a function of the base path and the identifier:
    it is the base, then the first two bytes of the identifier when it has
    at least two, else [misc], then the identifier with the suffix [.data];
    two identifiers with the same first two bytes derive paths with the same
    parent directory. *)
Theorem getDataPath_sharded (b : Backend) (id id' : string) :
  validateMessageID b id = None →
  validateMessageID b id' = None →
  (2 ≤ String.length id →
   getDataPath b id =
   below (basePath b) +:+ substring 0 2 id +:+ "/" +:+ id +:+ ".data") ∧
  (String.length id < 2 →
   getDataPath b id = below (basePath b) +:+ "misc" +:+ "/" +:+ id +:+ ".data") ∧
  (substring 0 2 id = substring 0 2 id' →
   filepath.Dir (getDataPath b id) = filepath.Dir (getDataPath b id')).
Proof.
  intros Hv Hv'.
  assert (getDataPath b id =
          below (basePath b) +:+ shard id +:+ "/" +:+ id +:+ ".data") as Hpath.
  { rewrite getDataPath_render by assumption.
    now rewrite render_below by discriminate. }
  split; [|split].
  - intros Hlen. rewrite Hpath. unfold shard.
    apply Nat.leb_le in Hlen. now rewrite Hlen.
  - intros Hlen. rewrite Hpath. unfold shard.
    apply Nat.leb_gt in Hlen. now rewrite Hlen.
  - intros E%shard_prefix. rewrite !Dir_getDataPath by assumption. now rewrite E.
Qed.

Lemma getDataPath_sharded_witness :
  getDataPath (mkBackend "/var/spool/data" false) "ab1" = "/var/spool/data/ab/ab1.data" ∧
  filepath.Dir (getDataPath (mkBackend "/var/spool/data" false) "ab1") =
  filepath.Dir (getDataPath (mkBackend "/var/spool/data" false) "ab2").
Proof.
  destruct (getDataPath_sharded (mkBackend "/var/spool/data" false) "ab1" "ab2"
              eq_refl eq_refl) as (H1 & _ & H3).
  split; [apply H1; simpl; lia | apply H3; reflexivity].
Defined.

(** C10. The path derived for a valid identifier names a location strictly
    inside the base directory, whatever the working directory: the location
    of the base followed by two plain names, the shard and the file. *)
Theorem getDataPath_inside_base (cwd : list string) (b : Backend) (id : string) :
  validateMessageID b id = None →
  filepath.Abs cwd (getDataPath b id) =
  filepath.Abs cwd (basePath b) ++ [shard id; id +:+ ".data"] ∧
  plain (shard id) ∧ plain (id +:+ ".data").
Proof.
  intros Hv. split; [now apply Abs_getDataPath|].
  split; [now apply (plain_shard b) | now apply (plain_file b)].
Qed.

Lemma getDataPath_inside_base_witness :
  filepath.Abs ["home"; "u"] (getDataPath (mkBackend "../spool/" false) "x") =
  ["home"; "spool"; "misc"; "x.data"].
Proof.
  exact (proj1 (getDataPath_inside_base ["home"; "u"] (mkBackend "../spool/" false) "x"
                  eq_refl)).
Defined.

(** An identifier that validation would refuse derives a path outside the
    base directory. *)
Example getDataPath_escapes :
  filepath.Abs [] (getDataPath (mkBackend "/var/spool/data" false) "../../../etc/x") =
  ["etc"; "x.data"].
Proof. reflexivity. Qed.

(** ** Validation comes first (C3) *)

Lemma validateMessageID_Some (b : Backend) (id : string) :
  id = "" ∨ strings.Contains id ".." = true ∨
  strings.ContainsAny id (String "/" (String backslash "")) = true ∨
  255 < String.length id →
  ∃ err, validation_error err ∧ validateMessageID b id = Some err.
Proof.
  intros H. unfold validateMessageID, validation_error.
  destruct (String.eqb_spec id "") as [|Hne]; [eauto 6|].
  destruct (strings.Contains id "..") eqn:Hdd; [eauto 6|].
  destruct (strings.ContainsAny id _) eqn:Hsep; [eauto 7|].
  destruct (Nat.ltb_spec 255 (String.length id)); [eauto 8|].
  destruct H as [H | [H | [H | H]]]; [contradiction | discriminate | discriminate | lia].
Qed.

(** C3. An identifier that is empty, contains [..], contains a forward or
    back slash, or is longer than 255 bytes makes each of the four
    operations fail with a validation error, leaving the world as it was:
    no lock taken, no call to the medium, nothing stored or removed. *)
Theorem invalid_id_rejected (b : Backend) (ctx : Context) (id : string)
    (data : Reader) (w : World) :
  id = "" ∨ strings.Contains id ".." = true ∨
  strings.ContainsAny id (String "/" (String backslash "")) = true ∨
  255 < String.length id →
  ∃ err, validation_error err ∧
    StoreData b ctx id data w = ((0%Z, Some err), w) ∧
    GetDataReader b ctx id w = ((None, Some err), w) ∧
    GetDataWriter b ctx id w = ((None, Some err), w) ∧
    DeleteData b ctx id w = (Some err, w).
Proof.
  intros (err & Herr & Hv)%(validateMessageID_Some b).
  exists err. unfold StoreData, GetDataReader, GetDataWriter, DeleteData.
  rewrite Hv. auto.
Qed.

Lemma invalid_id_rejected_witness :
  ∃ err, validation_error err ∧
    DeleteData (mkBackend "/var/spool/data" false) (mkContext None) "../etc"
      (mkWorld (os.mkFS [] ∅) []) = (Some err, mkWorld (os.mkFS [] ∅) []).
Proof.
  destruct (invalid_id_rejected (mkBackend "/var/spool/data" false) (mkContext None)
              "../etc" (mkReader [] None) (mkWorld (os.mkFS [] ∅) []))
    as (err & Herr & _ & _ & _ & Hdel).
  - right. left. reflexivity.
  - exists err. split; assumption.
Defined.

(** ** The closed backend (C6) *)

(** C6, as stated, fails: on a closed backend an operation with an invalid
    identifier reports the validation error, not the closed-backend error. *)
Lemma closed_backend_invalid_id :
  let w := mkWorld (os.mkFS [] ∅) [] in
  let '(b', _, w') := Close (mkBackend "/var/spool/data" false) w in
  closed b' = true ∧
  fst (StoreData b' (mkContext None) "a/b" (mkReader [] None) w') ≠ (0%Z, Some ErrClosed).
Proof. simpl. split; [reflexivity | discriminate]. Qed.

(** C6, amended. [Close] always succeeds and only sets the flag; closing
    again does the same.  Every later operation fails without any call to
    the medium: with the closed-backend error when the identifier is valid,
    and with the validation error, before the lock is taken, when it is
    not. *)
Theorem closed_backend_rejects (b : Backend) (ctx : Context) (id : string)
    (data : Reader) (w : World) :
  ∃ b', Close b w = ((b', None), only_locked Lock Unlock w) ∧
        closed b' = true ∧ basePath b' = basePath b ∧
        (∀ v, Close b' v = ((b', None), only_locked Lock Unlock v)) ∧
        ∀ v,
          (validateMessageID b' id = None →
           StoreData b' ctx id data v = ((0%Z, Some ErrClosed), only_locked Lock Unlock v) ∧
           GetDataReader b' ctx id v = ((None, Some ErrClosed), only_locked RLock RUnlock v) ∧
           GetDataWriter b' ctx id v = ((None, Some ErrClosed), only_locked Lock Unlock v) ∧
           DeleteData b' ctx id v = (Some ErrClosed, only_locked Lock Unlock v)) ∧
          (∀ err, validateMessageID b' id = Some err →
           StoreData b' ctx id data v = ((0%Z, Some err), v) ∧
           GetDataReader b' ctx id v = ((None, Some err), v) ∧
           GetDataWriter b' ctx id v = ((None, Some err), v) ∧
           DeleteData b' ctx id v = (Some err, v)).
Proof.
  exists (mkBackend (basePath b) true).
  assert (∀ v, mkWorld (fs v) ((trace v ++ [Lock]) ++ [Unlock]) = only_locked Lock Unlock v)
    as HL by (intros v; unfold only_locked; now rewrite <- app_assoc).
  assert (∀ v, mkWorld (fs v) ((trace v ++ [RLock]) ++ [RUnlock]) = only_locked RLock RUnlock v)
    as HR by (intros v; unfold only_locked; now rewrite <- app_assoc).
  split; [|split; [reflexivity|split; [reflexivity|split]]].
  - unfold Close, bind, emit, ret. simpl. now rewrite HL.
  - intros v. unfold Close, bind, emit, ret. simpl. now rewrite HL.
  - intros v. split.
    + intros Hv. unfold StoreData, GetDataReader, GetDataWriter, DeleteData.
      rewrite Hv. unfold bind, emit, ret. simpl. now rewrite HL, HR.
    + intros err Hv. unfold StoreData, GetDataReader, GetDataWriter, DeleteData.
      rewrite Hv. auto.
Qed.

Lemma closed_backend_rejects_witness :
  ∃ b', closed b' = true ∧
        DeleteData b' (mkContext None) "ab1" (mkWorld (os.mkFS [] ∅) [Lock; Unlock]) =
        (Some ErrClosed, mkWorld (os.mkFS [] ∅) [Lock; Unlock; Lock; Unlock]).
Proof.
  destruct (closed_backend_rejects (mkBackend "/var/spool/data" false) (mkContext None)
              "ab1" (mkReader [] None) (mkWorld (os.mkFS [] ∅) []))
    as (b' & Hclose & Hclosed & Hbase & _ & Hops).
  exists b'. split; [assumption|].
  destruct (Hops (mkWorld (os.mkFS [] ∅) [Lock; Unlock])) as [Hvalid _].
  destruct b' as [base c]. simpl in Hbase, Hclosed. subst base c.
  exact (proj2 (proj2 (proj2 (Hvalid eq_refl)))).
Defined.

(** ** What the calls to the medium leave behind *)

Lemma os_ReadDir_effect (dir : string) (w : World) :
  ∃ r, os.ReadDir (fs w) dir = r ∧
       os_ReadDir dir w = (r, mkWorld (fs w) (trace w ++ [IO (CallReadDir dir)])).
Proof.
  unfold os_ReadDir, sys, keep. destruct (os.ReadDir (fs w) dir); eauto.
Qed.

Lemma os_Remove_effect (path : string) (w : World) :
  (∃ x', os.Remove (fs w) path = ok x' ∧
         os_Remove path w = (ok tt, mkWorld x' (trace w ++ [IO (CallRemove path)]))) ∨
  (∃ e, os.Remove (fs w) path = fail e ∧
        os_Remove path w = (fail e, mkWorld (fs w) (trace w ++ [IO (CallRemove path)]))).
Proof.
  unfold os_Remove, sys, change. destruct (os.Remove (fs w) path); eauto.
Qed.

Lemma Remove_shrinks (x x' : os.FS) (path : string) :
  os.Remove x path = ok x' →
  os.cwd x' = os.cwd x ∧ os.nodes x' ⊆ os.nodes x ∧
  (os.nodes x ≠ ∅ ∧ size (os.nodes x') < size (os.nodes x)).
Proof.
  unfold os.Remove.
  destruct (String.eqb _ "."); [discriminate|].
  destruct (String.eqb _ ".."); [discriminate|].
  destruct (os.locate x path) as [e|q]; [discriminate|].
  destruct q as [|n q]; [discriminate|].
  unfold os.node_at.
  destruct (os.nodes x !! (n :: q)) as [nd|] eqn:Hq; [|discriminate].
  assert (os.cwd (os.drop x (n :: q)) = os.cwd x ∧
          os.nodes (os.drop x (n :: q)) ⊆ os.nodes x ∧
          (os.nodes x ≠ ∅ ∧ size (os.nodes (os.drop x (n :: q))) < size (os.nodes x)))
    as Hdrop.
  { simpl. split; [reflexivity|]. split; [apply delete_subseteq|].
    split; [intros E; rewrite E, lookup_empty in Hq; discriminate|].
    pose proof (map_size_delete_Some (n :: q) (os.nodes x) (mk_is_Some _ _ Hq)) as Hs.
    assert (size (os.nodes x) ≠ 0) by (intros E%map_size_empty_inv;
      rewrite E, lookup_empty in Hq; discriminate).
    lia. }
  destruct nd as [|content].
  - destruct (os.entries x (n :: q)); [|discriminate]. now intros [= <-].
  - now intros [= <-].
Qed.

(** The cleanup only removes nodes, and logs nothing but its calls. *)
Lemma cleanupEmptyDirs_rec_effect (fuel : nat) (b : Backend) (dir : string) (w w' : World) :
  cleanupEmptyDirs_rec fuel b dir w = Some w' →
  os.cwd (fs w') = os.cwd (fs w) ∧ os.nodes (fs w') ⊆ os.nodes (fs w) ∧
  ∃ l, trace w' = trace w ++ l ∧ ¬ In Done l.
Proof.
  revert dir w. induction fuel as [|fuel IH]; intros dir w; simpl;
    (destruct (String.eqb dir (basePath b));
     [intros [= <-]; split; [reflexivity|]; split; [reflexivity|];
      exists []; now rewrite app_nil_r|]);
    destruct (os_ReadDir_effect dir w) as (r & _ & ->);
    (destruct r as [[|e es]|e];
     [| intros [= <-]; simpl; split; [reflexivity|]; split; [reflexivity|];
        eexists; split; [reflexivity|]; simpl; intuition discriminate ..]);
    set (w1 := mkWorld (fs w) (trace w ++ [IO (CallReadDir dir)]));
    (destruct (os_Remove_effect dir w1) as [(x' & Hrm & ->)|(e & Hrm & ->)];
     [| intros [= <-]; simpl; split; [reflexivity|]; split; [reflexivity|];
        eexists; split; [rewrite <- app_assoc; reflexivity|];
        simpl; intuition discriminate]).
  - discriminate.
  - intros Hrec. apply IH in Hrec as (Hcwd & Hsub & l & Htr & Hl). simpl in *.
    apply Remove_shrinks in Hrm as (Hc & Hs & _).
    split; [congruence|]. split; [etrans; eassumption|].
    eexists. split; [rewrite Htr, <- !app_assoc; reflexivity|].
    simpl. intros [H|[H|H]]; try discriminate. contradiction.
Qed.

Lemma cleanupEmptyDirs_effect (b : Backend) (dir : string) (w : World) :
  ∃ w', cleanupEmptyDirs b dir w = (tt, w') ∧
        os.cwd (fs w') = os.cwd (fs w) ∧ os.nodes (fs w') ⊆ os.nodes (fs w) ∧
        ∃ l, trace w' = trace w ++ l ∧ ¬ In Done l.
Proof.
  unfold cleanupEmptyDirs.
  destruct (cleanupEmptyDirs_rec _ b dir w) as [w'|] eqn:Hrec.
  - exists w'. split; [reflexivity|]. eapply cleanupEmptyDirs_rec_effect, Hrec.
  - exists w. split; [reflexivity|]. split; [reflexivity|]. split; [reflexivity|].
    exists []. now rewrite app_nil_r.
Qed.

(** The recursion budget of the cleanup is never used up. *)
Lemma cleanupEmptyDirs_rec_total (fuel : nat) (b : Backend) (dir : string) (w : World) :
  size (os.nodes (fs w)) ≤ fuel → ∃ w', cleanupEmptyDirs_rec fuel b dir w = Some w'.
Proof.
  revert dir w. induction fuel as [|fuel IH]; intros dir w Hsize; simpl;
    (destruct (String.eqb dir (basePath b)); [eauto|]);
    destruct (os_ReadDir_effect dir w) as (r & _ & ->);
    (destruct r as [[|e es]|e]; [|eauto ..]);
    set (w1 := mkWorld (fs w) (trace w ++ [IO (CallReadDir dir)]));
    (destruct (os_Remove_effect dir w1) as [(x' & Hrm & ->)|(e & Hrm & ->)]; [|eauto]);
    apply Remove_shrinks in Hrm as (_ & _ & Hne & Hlt); simpl in *.
  - lia.
  - apply IH. simpl. lia.
Qed.

Lemma cleanupEmptyDirs_total (b : Backend) (dir : string) (w : World) :
  ∃ w', cleanupEmptyDirs_rec (size (os.nodes (fs w))) b dir w = Some w' ∧
        cleanupEmptyDirs b dir w = (tt, w').
Proof.
  destruct (cleanupEmptyDirs_rec_total _ b dir w (le_n _)) as [w' H].
  exists w'. split; [assumption|]. unfold cleanupEmptyDirs. now rewrite H.
Qed.

(** ** The context is looked at once (C7) *)

Ltac trace_shape :=
  eexists; split;
  [ simpl; repeat rewrite <- app_assoc; simpl; reflexivity
  | simpl; repeat rewrite in_app_iff; simpl; intuition discriminate ].

Lemma StoreData_checked_once (b : Backend) (ctx : Context) (id : string)
    (data : Reader) (w : World) :
  validateMessageID b id = None → closed b = false →
  checked_once Lock w (snd (StoreData b ctx id data w)).
Proof.
  intros Hv Hopen. unfold StoreData, checked_once. rewrite Hv, Hopen.
  unfold io_Copy, file_Close, os_MkdirAll, os_Create, select_Done, bind, emit, ret,
    sys, change. simpl.
  destruct (ctx_Err ctx); [trace_shape|].
  destruct (os.MkdirAll _ _); simpl; [|trace_shape].
  destruct (os.Create _ _) as [[f x]|]; simpl; [|trace_shape].
  destruct (os.Write _ _ _); simpl; [destruct (failure data)|]; trace_shape.
Qed.

Lemma GetDataReader_checked_once (b : Backend) (ctx : Context) (id : string) (w : World) :
  validateMessageID b id = None → closed b = false →
  checked_once RLock w (snd (GetDataReader b ctx id w)).
Proof.
  intros Hv Hopen. unfold GetDataReader, checked_once. rewrite Hv, Hopen.
  unfold os_Open, select_Done, bind, emit, ret, sys, keep. simpl.
  destruct (ctx_Err ctx); [trace_shape|].
  destruct (os.Open _ _) as [f|e]; simpl; [trace_shape|].
  destruct (IsNotExist e); trace_shape.
Qed.

Lemma GetDataWriter_checked_once (b : Backend) (ctx : Context) (id : string) (w : World) :
  validateMessageID b id = None → closed b = false →
  checked_once Lock w (snd (GetDataWriter b ctx id w)).
Proof.
  intros Hv Hopen. unfold GetDataWriter, checked_once. rewrite Hv, Hopen.
  unfold os_MkdirAll, os_Create, select_Done, bind, emit, ret, sys, change. simpl.
  destruct (ctx_Err ctx); [trace_shape|].
  destruct (os.MkdirAll _ _); simpl; [|trace_shape].
  destruct (os.Create _ _) as [[f x]|]; simpl; trace_shape.
Qed.

Lemma DeleteData_checked_once (b : Backend) (ctx : Context) (id : string) (w : World) :
  validateMessageID b id = None → closed b = false →
  checked_once Lock w (snd (DeleteData b ctx id w)).
Proof.
  intros Hv Hopen. unfold DeleteData, checked_once. rewrite Hv, Hopen.
  unfold select_Done, bind, emit, ret. simpl.
  destruct (ctx_Err ctx); [trace_shape|].
  match goal with |- context [os_Remove ?p ?v] =>
    destruct (os_Remove_effect p v) as [(x' & _ & ->)|(e & _ & ->)] end.
  - match goal with |- context [cleanupEmptyDirs b ?d ?v] =>
      destruct (cleanupEmptyDirs_effect b d v) as (w' & -> & _ & _ & l & Htr & Hl) end.
    simpl in *. rewrite Htr. eexists. split; [repeat rewrite <- app_assoc; simpl; reflexivity|].
    simpl. rewrite in_app_iff. simpl. intuition discriminate.
  - destruct (IsNotExist e); simpl; [|trace_shape].
    match goal with |- context [cleanupEmptyDirs b ?d ?v] =>
      destruct (cleanupEmptyDirs_effect b d v) as (w' & -> & _ & _ & l & Htr & Hl) end.
    simpl in *. rewrite Htr. eexists. split; [repeat rewrite <- app_assoc; simpl; reflexivity|].
    simpl. rewrite in_app_iff. simpl. intuition discriminate.
Qed.

(** C7, as stated, fails: on a closed backend a triggered signal is not
    looked at, and the operation reports the closed-backend error. *)
Lemma closed_before_cancellation :
  StoreData (mkBackend "/var/spool/data" true) (mkContext (Some Canceled)) "ab1"
    (mkReader [] None) (mkWorld (os.mkFS [] ∅) []) =
  ((0%Z, Some ErrClosed), mkWorld (os.mkFS [] ∅) [Lock; Unlock]) ∧
  Some ErrClosed ≠ Some Canceled.
Proof. split; [reflexivity | discriminate]. Qed.

(** C7, amended. On an open backend, an operation with a valid identifier
    takes its lock and then looks at the cancellation signal exactly once,
    before any call to the medium.  When the signal is triggered the
    operation returns the context's error, makes no call to the medium and
    releases the lock. *)
Theorem context_checked_once (b : Backend) (ctx : Context) (id : string)
    (data : Reader) (w : World) :
  validateMessageID b id = None → closed b = false →
  (checked_once Lock w (snd (StoreData b ctx id data w)) ∧
   checked_once RLock w (snd (GetDataReader b ctx id w)) ∧
   checked_once Lock w (snd (GetDataWriter b ctx id w)) ∧
   checked_once Lock w (snd (DeleteData b ctx id w))) ∧
  ∀ err, ctx_Err ctx = Some err →
    StoreData b ctx id data w = ((0%Z, Some err), only_checked Lock Unlock w) ∧
    GetDataReader b ctx id w = ((None, Some err), only_checked RLock RUnlock w) ∧
    GetDataWriter b ctx id w = ((None, Some err), only_checked Lock Unlock w) ∧
    DeleteData b ctx id w = (Some err, only_checked Lock Unlock w).
Proof.
  intros Hv Hopen. split.
  - split; [now apply StoreData_checked_once|].
    split; [now apply GetDataReader_checked_once|].
    split; [now apply GetDataWriter_checked_once | now apply DeleteData_checked_once].
  - intros err Herr.
    unfold StoreData, GetDataReader, GetDataWriter, DeleteData, only_checked.
    rewrite Hv, Hopen. unfold select_Done, bind, emit, ret. simpl. rewrite Herr.
    simpl. repeat rewrite <- app_assoc. simpl. auto.
Qed.

Lemma context_checked_once_witness :
  DeleteData (mkBackend "/var/spool/data" false) (mkContext (Some Canceled)) "ab1"
    (mkWorld (os.mkFS [] ∅) []) =
  (Some Canceled, mkWorld (os.mkFS [] ∅) [Lock; Done; Unlock]).
Proof.
  destruct (context_checked_once (mkBackend "/var/spool/data" false)
              (mkContext (Some Canceled)) "ab1" (mkReader [] None)
              (mkWorld (os.mkFS [] ∅) []) eq_refl eq_refl) as [_ H].
  exact (proj2 (proj2 (proj2 (H Canceled eq_refl)))).
Defined.

(** ** Name resolution on the medium *)

Lemma traverse_app (x : os.FS) (cur r1 r2 : list string) :
  os.traverse x cur (r1 ++ r2) =
  match os.traverse x cur r1 with
  | Some e => Some e
  | None => os.traverse x (cur ++ r1) r2
  end.
Proof.
  revert cur. induction r1 as [|n r1 IH]; intros cur; simpl.
  - now rewrite app_nil_r.
  - destruct (os.node_at x cur) as [[|c]|]; try reflexivity.
    now rewrite IH, <- app_assoc.
Qed.

Lemma traverse_agree (x x' : os.FS) (cur rest : list string) :
  (∀ p, length p < length cur + length rest → os.node_at x p = os.node_at x' p) →
  os.traverse x cur rest = os.traverse x' cur rest.
Proof.
  revert cur. induction rest as [|n rest IH]; intros cur H; simpl; [reflexivity|].
  rewrite <- (H cur) by (simpl; lia).
  destruct (os.node_at x cur) as [[|c]|]; try reflexivity.
  apply IH. intros p Hp. apply H. rewrite length_app in Hp. simpl in *. lia.
Qed.




Lemma node_at_put_ne (x : os.FS) (q q' : list string) (n : os.node) :
  q' ≠ q → os.node_at (os.put x q n) q' = os.node_at x q'.
Proof. intros Hne. destruct q'; simpl; [reflexivity|]. now rewrite lookup_insert_ne. Qed.

Lemma node_at_put_eq (x : os.FS) (q : list string) (n : os.node) :
  q ≠ [] → os.node_at (os.put x q n) q = Some n.
Proof. intros Hne. destruct q; [contradiction|]. simpl. now rewrite lookup_insert_eq. Qed.

Lemma locate_eq (x : os.FS) (path : string) :
  path ≠ "" →
  os.locate x path =
  match os.traverse x [] (filepath.Abs (os.cwd x) path) with
  | Some e => inl e
  | None => inr (filepath.Abs (os.cwd x) path)
  end.
Proof. intros Hne%String.eqb_neq. unfold os.locate. now rewrite Hne. Qed.

Lemma Stat_ok (x : os.FS) (path : string) (n : os.node) :
  os.Stat x path = ok n ↔
  path ≠ "" ∧ os.traverse x [] (filepath.Abs (os.cwd x) path) = None ∧
  os.peek x path = Some n.
Proof.
  unfold os.Stat, os.peek, os.locate.
  destruct (String.eqb_spec path "") as [->|Hne].
  - split; [discriminate | now intros [? _]].
  - destruct (os.traverse x [] _); [split; [discriminate | now intros (_ & ? & _)]|].
    destruct (os.node_at x _); split.
    + intros [= ->]. auto.
    + now intros (_ & _ & [= ->]).
    + discriminate.
    + now intros (_ & _ & ?).
Qed.

Lemma trim_separators_free (s : string) :
  filepath.has_separator s = false → os.trim_separators s = s.
Proof.
  induction s as [|c s IH]; [reflexivity|]. simpl.
  intros [Hc Hs]%orb_false_elim. rewrite (IH Hs), Hc. now destruct s.
Qed.

Lemma trim_separators_append (x s : string) :
  filepath.has_separator s = false → s ≠ "" →
  os.trim_separators (x +:+ s) = x +:+ s.
Proof.
  intros Hfree Hne. induction x as [|c x IH]; simpl.
  - now apply trim_separators_free.
  - rewrite IH. destruct (x +:+ s) eqn:E; [|reflexivity].
    apply append_eq_empty in E as [_ ?]. contradiction.
Qed.

Lemma Abs_append_slash (cwd : list string) (path : string) :
  path ≠ "" → filepath.Abs cwd (path +:+ "/") = filepath.Abs cwd path.
Proof.
  intros Hne. unfold filepath.Abs.
  rewrite rooted_append, elements_append_sep by assumption.
  now rewrite fold_left_app.
Qed.

(** ** The slot of a valid identifier on the medium *)

Section Slot.

Variables (b : Backend) (id : string).
Hypothesis Hv : validateMessageID b id = None.

Lemma dp_not_empty : getDataPath b id ≠ "".
Proof.
  rewrite getDataPath_render by assumption. apply render_not_empty.
  apply normal_app; [apply base_elements_normal | now apply (plain_names b)].
Qed.

Lemma dd_not_empty : filepath.Dir (getDataPath b id) ≠ "".
Proof.
  rewrite Dir_getDataPath by assumption. apply render_not_empty.
  apply normal_app; [apply base_elements_normal | now apply (plain_shard_names b)].
Qed.

Lemma Abs_dp (x : os.FS) :
  filepath.Abs (os.cwd x) (getDataPath b id) = blob_loc x b id.
Proof.
  rewrite Abs_getDataPath by assumption.
  unfold blob_loc, shard_loc, base_loc. now rewrite <- app_assoc.
Qed.

Lemma Abs_dd (x : os.FS) :
  filepath.Abs (os.cwd x) (filepath.Dir (getDataPath b id)) = shard_loc x b id.
Proof. now apply Abs_Dir_getDataPath. Qed.

Lemma base_ok_nodes (x : os.FS) :
  os.Stat x (basePath b) = ok os.Directory →
  os.traverse x [] (base_loc x b) = None ∧
  os.node_at x (base_loc x b) = Some os.Directory.
Proof. now intros (_ & ? & ?)%Stat_ok. Qed.

Lemma traverse_dd (x : os.FS) :
  os.Stat x (basePath b) = ok os.Directory →
  os.traverse x [] (shard_loc x b id) = None.
Proof.
  intros [Ht Hn]%base_ok_nodes. unfold shard_loc.
  rewrite traverse_app, Ht. simpl. now rewrite Hn.
Qed.

Lemma traverse_dp (x : os.FS) :
  os.Stat x (basePath b) = ok os.Directory →
  os.traverse x [] (blob_loc x b id) =
  match os.node_at x (shard_loc x b id) with
  | Some os.Directory => None
  | Some (os.Regular _) => Some ENOTDIR
  | None => Some ENOENT
  end.
Proof.
  intros Hbase. unfold blob_loc. rewrite traverse_app, traverse_dd by assumption.
  reflexivity.
Qed.

Lemma Stat_dd (x : os.FS) :
  os.Stat x (basePath b) = ok os.Directory →
  os.Stat x (filepath.Dir (getDataPath b id)) =
  match os.node_at x (shard_loc x b id) with
  | Some n => ok n
  | None => fail (mkPathError "stat" (filepath.Dir (getDataPath b id)) ENOENT)
  end.
Proof.
  intros Hbase. unfold os.Stat.
  now rewrite locate_eq, Abs_dd, traverse_dd by (assumption || apply dd_not_empty).
Qed.

Lemma Stat_dp (x : os.FS) :
  os.Stat x (basePath b) = ok os.Directory →
  os.Stat x (getDataPath b id) =
  match os.node_at x (shard_loc x b id) with
  | Some os.Directory =>
      match os.node_at x (blob_loc x b id) with
      | Some n => ok n
      | None => fail (mkPathError "stat" (getDataPath b id) ENOENT)
      end
  | Some (os.Regular _) => fail (mkPathError "stat" (getDataPath b id) ENOTDIR)
  | None => fail (mkPathError "stat" (getDataPath b id) ENOENT)
  end.
Proof.
  intros Hbase. unfold os.Stat.
  rewrite locate_eq, Abs_dp, traverse_dp by (assumption || apply dp_not_empty).
  now destruct (os.node_at x (shard_loc x b id)) as [[|c]|].
Qed.

Lemma length_locs (x : os.FS) :
  length (shard_loc x b id) = S (length (base_loc x b)) ∧
  length (blob_loc x b id) = S (S (length (base_loc x b))).
Proof. unfold blob_loc, shard_loc. rewrite !length_app. simpl. lia. Qed.

(** A change of the medium at or below the shard leaves the base as it was. *)
Lemma base_ok_preserved (x x' : os.FS) :
  os.cwd x' = os.cwd x →
  (∀ q, length q ≤ length (base_loc x b) → os.node_at x' q = os.node_at x q) →
  os.Stat x (basePath b) = ok os.Directory →
  os.Stat x' (basePath b) = ok os.Directory.
Proof.
  intros Hcwd Hsame (Hne & Ht & Hn)%Stat_ok. apply Stat_ok.
  unfold os.peek in *. rewrite Hcwd. fold (base_loc x b) in *.
  split; [assumption|]. split.
  - rewrite <- Ht. apply traverse_agree. intros p Hp. apply Hsame. simpl in Hp. lia.
  - rewrite <- Hn. now apply Hsame.
Qed.

(** The parent that [MkdirAll] falls back on is the base directory, which
    exists. *)
Lemma parent_dd (x : os.FS) :
  os.Stat x (basePath b) = ok os.Directory →
  os.parent (filepath.Dir (getDataPath b id)) = "" ∨
  os.Stat x (os.parent (filepath.Dir (getDataPath b id))) = ok os.Directory.
Proof.
  intros Hbase. rewrite Dir_getDataPath by assumption.
  destruct (plain_shard b id Hv) as (Hfree & Hne & _).
  pose proof (base_elements_normal (basePath b)) as Hn.
  pose proof (Clean_base (basePath b)) as Hclean.
  unfold os.parent. destruct (base_elements (basePath b)) as [|d ds].
  - destruct (filepath.rooted (basePath b)); simpl app; unfold filepath.render.
    + right. change (String filepath.Separator (strings.Join [shard id] "/"))
        with ("" +:+ String "/" (shard id)).
      change ("" +:+ String "/" (shard id)) with ("/" +:+ shard id) at 1.
      rewrite trim_separators_append by assumption.
      change ("/" +:+ shard id) with ("" +:+ String "/" (shard id)).
      rewrite up_to_last_separator_append by assumption. reflexivity.
    + left. simpl strings.Join.
      rewrite trim_separators_free by assumption.
      now apply up_to_last_separator_none.
  - right. rewrite render_snoc by discriminate.
    set (R := filepath.render (filepath.rooted (basePath b)) (d :: ds)) in *.
    assert (R ≠ "") as HR by (now apply render_not_empty).
    replace (R +:+ String "/" (shard id)) with ((R +:+ "/") +:+ shard id)
      by (now rewrite append_assoc).
    rewrite trim_separators_append by assumption.
    rewrite append_assoc. change ("/" +:+ shard id) with (String "/" (shard id)).
    rewrite up_to_last_separator_append by assumption.
    apply Stat_ok in Hbase as (_ & Ht & Hp). apply Stat_ok.
    unfold os.peek in *.
    rewrite Abs_append_slash, <- Hclean, Abs_Clean by assumption.
    split; [|split; assumption].
    now intros [_ [=]]%append_eq_empty.
Qed.

Lemma MkdirAll_rec_exists (fuel : nat) (x : os.FS) (path : string) :
  os.Stat x path = ok os.Directory → os.MkdirAll_rec fuel x path = Some (ok x).
Proof. intros H. destruct fuel; simpl; now rewrite H. Qed.

Lemma Mkdir_dd (x : os.FS) :
  os.Stat x (basePath b) = ok os.Directory →
  os.node_at x (shard_loc x b id) = None →
  os.Mkdir x (filepath.Dir (getDataPath b id)) =
  ok (os.put x (shard_loc x b id) os.Directory).
Proof.
  intros Hbase Hnone. unfold os.Mkdir.
  rewrite locate_eq, Abs_dd, traverse_dd by (assumption || apply dd_not_empty).
  now rewrite Hnone.
Qed.

(** [MkdirAll] on the shard directory: nothing to do when it exists,
    one directory to make when it does not. *)
Lemma MkdirAll_dd (x : os.FS) :
  os.Stat x (basePath b) = ok os.Directory →
  (∀ c, os.node_at x (shard_loc x b id) ≠ Some (os.Regular c)) →
  os.MkdirAll x (filepath.Dir (getDataPath b id)) =
  ok (match os.node_at x (shard_loc x b id) with
      | Some _ => x
      | None => os.put x (shard_loc x b id) os.Directory
      end).
Proof.
  intros Hbase Hreg. unfold os.MkdirAll.
  destruct (os.node_at x (shard_loc x b id)) as [[|c]|] eqn:Hnode.
  - rewrite MkdirAll_rec_exists; [reflexivity|]. now rewrite Stat_dd, Hnode.
  - now destruct (Hreg c).
  - destruct (String.length (filepath.Dir (getDataPath b id))) as [|n] eqn:Hlen.
    { pose proof dd_not_empty as H.
      destruct (filepath.Dir (getDataPath b id)); [contradiction | discriminate]. }
    simpl os.MkdirAll_rec. rewrite Stat_dd, Hnode by assumption.
    destruct (parent_dd x Hbase) as [->|Hparent].
    + simpl. now rewrite Mkdir_dd.
    + rewrite (MkdirAll_rec_exists n x _ Hparent).
      destruct (String.eqb _ ""); now rewrite Mkdir_dd.
Qed.

End Slot.

(** ** Storing and reading back *)

Section Store.

Variables (b : Backend) (id : string).
Hypothesis Hv : validateMessageID b id = None.


Lemma blob_loc_not_nil (x : os.FS) : blob_loc x b id ≠ [].
Proof. unfold blob_loc. now destruct (shard_loc x b id). Qed.

Lemma shard_loc_not_nil (x : os.FS) : shard_loc x b id ≠ [].
Proof. unfold shard_loc. now destruct (base_loc x b). Qed.

Lemma layout_nodes (x : os.FS) :
  layout_ok x b id ↔
  os.Stat x (basePath b) = ok os.Directory ∧
  (∀ c, os.node_at x (shard_loc x b id) ≠ Some (os.Regular c)) ∧
  os.node_at x (blob_loc x b id) ≠ Some os.Directory.
Proof.
  unfold layout_ok, os.peek. now rewrite Abs_dd, Abs_dp.
Qed.





End Store.

Lemma layout_ok_spool (id : string) :
  validateMessageID (mkBackend "/var/spool/data" false) id = None →
  layout_ok spool (mkBackend "/var/spool/data" false) id.
Proof.
  intros Hv. apply layout_nodes; [assumption|].
  split; [reflexivity|].
  assert (∀ q, 3 < length q → os.node_at spool q = None) as Hdeep.
  { intros q Hq. do 4 (destruct q as [|? q]; [simpl in Hq; lia|]).
    unfold os.node_at, spool. cbn [os.nodes].
    rewrite !lookup_insert_ne by discriminate. apply lookup_empty. }
  destruct (length_locs (mkBackend "/var/spool/data" false) id spool) as [LD LQ].
  change (length (base_loc spool (mkBackend "/var/spool/data" false))) with 3 in LD, LQ.
  split; [intros c|]; rewrite Hdeep by lia; discriminate.
Qed.

(** ** Round trip and overwrite (C1, C8) *)





(** ** Reading what is not there (C9) *)



(** ** Deleting *)


Lemma node_at_drop_ne (x : os.FS) (q q' : list string) :
  q' ≠ q → os.node_at (os.drop x q) q' = os.node_at x q'.
Proof. intros Hne. destruct q'; simpl; [reflexivity|]. now rewrite lookup_delete_ne. Qed.

Lemma node_at_drop_eq (x : os.FS) (q : list string) :
  q ≠ [] → os.node_at (os.drop x q) q = None.
Proof. intros Hne. destruct q; [contradiction|]. simpl. now rewrite lookup_delete_eq. Qed.

Section Delete.

Variables (b : Backend) (id : string).
Hypothesis Hv : validateMessageID b id = None.

Lemma last_element_dp : os.last_element (getDataPath b id) = id +:+ ".data".
Proof.
  destruct (plain_file b id Hv) as (Hfree & Hne & _).
  unfold os.last_element. rewrite getDataPath_render by assumption.
  change [shard id; id +:+ ".data"] with ([shard id] ++ [id +:+ ".data"]).
  rewrite app_assoc, render_snoc by (now destruct (base_elements (basePath b))).
  set (R := filepath.render _ _).
  replace (R +:+ String "/" (id +:+ ".data")) with ((R +:+ "/") +:+ (id +:+ ".data"))
    by (now rewrite append_assoc).
  rewrite trim_separators_append by assumption.
  rewrite append_assoc. change ("/" +:+ (id +:+ ".data")) with (String "/" (id +:+ ".data")).
  rewrite elements_append_sep, (elements_no_separator _ Hfree).
  apply last_last.
Qed.

(** [os.Remove] on the blob path, by what is found on the medium. *)
Lemma Remove_dp (x : os.FS) :
  os.Remove x (getDataPath b id) =
  match os.traverse x [] (blob_loc x b id) with
  | Some e => fail (mkPathError "remove" (getDataPath b id) e)
  | None =>
      match os.node_at x (blob_loc x b id) with
      | None => fail (mkPathError "remove" (getDataPath b id) ENOENT)
      | Some (os.Regular _) => ok (os.drop x (blob_loc x b id))
      | Some os.Directory =>
          match os.entries x (blob_loc x b id) with
          | [] => ok (os.drop x (blob_loc x b id))
          | _ => fail (mkPathError "remove" (getDataPath b id) ENOTEMPTY)
          end
      end
  end.
Proof.
  destruct (plain_file b id Hv) as (_ & _ & Hdot & Hdotdot).
  unfold os.Remove. rewrite last_element_dp.
  apply String.eqb_neq in Hdot as ->. apply String.eqb_neq in Hdotdot as ->.
  rewrite locate_eq, Abs_dp by (assumption || now apply dp_not_empty).
  destruct (os.traverse x [] (blob_loc x b id)); [reflexivity|].
  pose proof (blob_loc_not_nil b id x) as Hne.
  destruct (blob_loc x b id) as [|n q]; [contradiction | reflexivity].
Qed.

Lemma gone_cases (x : os.FS) :
  gone b id x ↔
  os.traverse x [] (blob_loc x b id) = Some ENOENT ∨
  (os.traverse x [] (blob_loc x b id) = None ∧ os.node_at x (blob_loc x b id) = None).
Proof.
  unfold gone. rewrite Remove_dp.
  destruct (os.traverse x [] (blob_loc x b id)) as [e|].
  - split; [intros [= ->]; auto | intros [[= ->]|[? _]]; [reflexivity | discriminate]].
  - destruct (os.node_at x (blob_loc x b id)) as [[|c]|].
    + destruct (os.entries x (blob_loc x b id));
        (split; [discriminate | intros [?|[_ ?]]; discriminate]).
    + split; [discriminate | intros [?|[_ ?]]; discriminate].
    + split; auto.
Qed.


Lemma gone_not_stored (x : os.FS) : gone b id x → stored x b id = None.
Proof.
  intros Hgone%gone_cases. unfold stored, os.Stat.
  rewrite locate_eq, Abs_dp by (assumption || now apply dp_not_empty).
  destruct Hgone as [->|[-> ->]]; reflexivity.
Qed.

(** On a medium laid out for the identifier, removing the blob path
    either removes the blob or finds nothing. *)
Lemma Remove_layout (x : os.FS) :
  layout_ok x b id →
  os.traverse x [] (blob_loc x b id) ≠ Some ENOTDIR ∧
  (gone b id x ∨
   (os.Remove x (getDataPath b id) = ok (os.drop x (blob_loc x b id)) ∧
    gone b id (os.drop x (blob_loc x b id)))).
Proof.
  intros (Hbase & Hshard & Hblob)%(layout_nodes b id Hv).
  pose proof (traverse_dp b id x Hbase) as Ht.
  split.
  { rewrite Ht. destruct (os.node_at x (shard_loc x b id)) as [[|c]|];
      [discriminate | now destruct (Hshard c) | discriminate]. }
  destruct (os.node_at x (shard_loc x b id)) as [[|c]|] eqn:HD;
    [| now destruct (Hshard c) | left; apply gone_cases; now left].
  destruct (os.node_at x (blob_loc x b id)) as [[|c]|] eqn:HQ;
    [contradiction | | left; apply gone_cases; now right].
  right. split; [now rewrite Remove_dp, Ht, HQ|].
  apply gone_cases. right.
  pose proof (blob_loc_not_nil b id x) as Hne.
  change (blob_loc (os.drop x (blob_loc x b id)) b id) with (blob_loc x b id).
  split; [|now apply node_at_drop_eq].
  rewrite <- Ht. apply traverse_agree. intros p Hp.
  apply node_at_drop_ne. intros ->. simpl in Hp. lia.
Qed.

(** [DeleteData] succeeds whenever the removal does or finds nothing,
    whatever the cleanup meets; it only ever takes nodes away. *)
Lemma DeleteData_ok (ctx : Context) (w : World) (x' : os.FS) :
  closed b = false → ctx_Err ctx = None →
  (os.Remove (fs w) (getDataPath b id) = ok x' ∨ (gone b id (fs w) ∧ x' = fs w)) →
  ∃ w1, DeleteData b ctx id w = (None, w1) ∧
        os.cwd (fs w1) = os.cwd x' ∧ os.nodes (fs w1) ⊆ os.nodes x'.
Proof.
  intros Hopen Hlive Hrm. unfold DeleteData. rewrite Hv, Hopen.
  unfold os_Remove, select_Done, bind, emit, ret, sys, change. cbn [fs trace].
  rewrite Hlive. cbn [fs trace].
  destruct Hrm as [->|[-> ->]]; cbn [fs trace IsNotExist Err negb];
    match goal with |- context [cleanupEmptyDirs b ?d ?v] =>
      destruct (cleanupEmptyDirs_effect b d v) as (w' & -> & Hcwd & Hsub & _) end;
    cbn [fs trace] in *; eauto.
Qed.

End Delete.

(** ** Idempotent delete (C4) *)



(** ** The cleanup and the base directory (C5) *)

(** C5 at a base path given with a trailing separator.  The backend is
    constructed, one blob is stored and deleted again: the store and the
    delete succeed, the base directory exists before the delete and is
    gone after it.  The cleanup stopped one level higher, at
    [/var/spool], which is not empty. *)
Theorem cleanup_removes_unclean_base :
  let '(r0, w0) := NewBackend "/var/spool/data/" spool_world in
  let b := mkBackend "/var/spool/data/" false in
  let '(r1, w1) := StoreData b background "ab1" (mkReader [x68; x69] None) w0 in
  let '(r2, w2) := DeleteData b background "ab1" w1 in
  r0 = (Some b, None) ∧ r1 = (2%Z, None) ∧ r2 = None ∧
  os.Stat (fs w1) "/var/spool/data/" = ok os.Directory ∧
  os.Stat (fs w2) "/var/spool/data/" =
    fail (mkPathError "stat" "/var/spool/data/" ENOENT) ∧
  os.Stat (fs w2) "/var/spool" = ok os.Directory.
Proof. vm_compute. repeat split. Qed.

(** The same steps at the base path in its cleaned form: the shard
    directory is removed, the base directory stays. *)
Example cleanup_keeps_clean_base :
  let '(r0, w0) := NewBackend "/var/spool/data" spool_world in
  let b := mkBackend "/var/spool/data" false in
  let '(r1, w1) := StoreData b background "ab1" (mkReader [x68; x69] None) w0 in
  let '(r2, w2) := DeleteData b background "ab1" w1 in
  r0 = (Some b, None) ∧ r1 = (2%Z, None) ∧ r2 = None ∧
  os.Stat (fs w2) "/var/spool/data/ab" =
    fail (mkPathError "stat" "/var/spool/data/ab" ENOENT) ∧
  os.Stat (fs w2) "/var/spool/data" = ok os.Directory.
Proof. vm_compute. repeat split. Qed.

Lemma Remove_ok_drop (x x' : os.FS) (path : string) :
  os.Remove x path = ok x' → x' = os.drop x (filepath.Abs (os.cwd x) path).
Proof.
  unfold os.Remove, os.locate.
  destruct (String.eqb _ "."); [discriminate|].
  destruct (String.eqb _ ".."); [discriminate|].
  destruct (String.eqb path ""); [discriminate|].
  destruct (os.traverse x [] _); [discriminate|].
  destruct (filepath.Abs (os.cwd x) path) as [|n q]; [discriminate|].
  destruct (os.node_at x (n :: q)) as [[|c]|]; [|congruence | discriminate].
  destruct (os.entries x (n :: q)); [congruence | discriminate].
Qed.

(** The cleanup started at the shard directory removes at most that
    directory when the base path is in its cleaned form. *)
Lemma cleanup_shard_keeps_base (b : Backend) (id : string) (fuel : nat) (w w1 : World) :
  validateMessageID b id = None →
  filepath.Clean (basePath b) = basePath b →
  os.Stat (fs w) (basePath b) = ok os.Directory →
  cleanupEmptyDirs_rec fuel b (filepath.Dir (getDataPath b id)) w = Some w1 →
  os.Stat (fs w1) (basePath b) = ok os.Directory.
Proof.
  intros Hv Hclean Hbase.
  assert (filepath.Dir (filepath.Dir (getDataPath b id)) = basePath b) as Hup.
  { rewrite Dir_getDataPath by assumption.
    rewrite Dir_render, <- Clean_base;
      [assumption | apply base_elements_normal | now apply (plain_shard b)]. }
  destruct fuel as [|fuel]; simpl;
    (destruct (String.eqb _ (basePath b)); [now intros [= <-]|]);
    destruct (os_ReadDir_effect (filepath.Dir (getDataPath b id)) w) as (r & _ & ->);
    (destruct r as [[|e es]|e]; [| now intros [= <-] ..]);
    match goal with |- context [os_Remove ?p ?v] =>
      destruct (os_Remove_effect p v) as [(x' & Hrm & ->)|(e & _ & ->)] end;
    try (now intros [= <-]); try discriminate.
  rewrite Hup. destruct fuel; simpl; rewrite String.eqb_refl; intros [= <-]; simpl;
    simpl in Hrm; apply Remove_ok_drop in Hrm as ->;
    (apply (base_ok_preserved b (fs w)); [reflexivity | | assumption]);
    intros q Hq; apply node_at_drop_ne; intros ->;
    rewrite (Abs_dd b id Hv) in Hq;
    destruct (length_locs b id (fs w)) as [LD _]; lia.
Qed.

(** With the base path in its cleaned form the guard of the cleanup works:
    whether a blob is stored or not, the delete succeeds and the base
    directory is still there afterwards. *)
Lemma DeleteData_keeps_clean_base (b : Backend) (ctx : Context) (id : string) (w : World) :
  validateMessageID b id = None → closed b = false → ctx_Err ctx = None →
  layout_ok (fs w) b id →
  filepath.Clean (basePath b) = basePath b →
  fst (DeleteData b ctx id w) = None ∧
  os.Stat (fs (snd (DeleteData b ctx id w))) (basePath b) = ok os.Directory.
Proof.
  intros Hv Hopen Hlive Hlay Hclean.
  destruct (Remove_layout b id Hv (fs w) Hlay) as [_ Hcases].
  pose proof Hlay as (Hbase & _).
  assert (∃ x', (os.Remove (fs w) (getDataPath b id) = ok x' ∨
                 (gone b id (fs w) ∧ x' = fs w)) ∧
                os.Stat x' (basePath b) = ok os.Directory) as (x' & Hrm & Hbase').
  { destruct Hcases as [Hgone|[Hrm _]]; [exists (fs w); auto|].
    eexists. split; [left; exact Hrm|].
    apply (base_ok_preserved b (fs w)); [reflexivity | | assumption].
    intros q Hq. apply node_at_drop_ne. intros ->.
    destruct (length_locs b id (fs w)) as [_ LQ]. lia. }
  unfold DeleteData. rewrite Hv, Hopen.
  unfold os_Remove, select_Done, bind, emit, ret, sys, change. cbn [fs trace].
  rewrite Hlive. cbn [fs trace].
  destruct Hrm as [->|[-> ->]]; cbn [fs trace IsNotExist Err negb];
    match goal with |- context [cleanupEmptyDirs b ?d ?v] =>
      destruct (cleanupEmptyDirs_total b d v) as (w' & Hrec & ->) end;
    cbn [fst snd fs trace]; (split; [reflexivity|]);
    (eapply cleanup_shard_keeps_base; [exact Hv | exact Hclean | | exact Hrec]);
    cbn [fs]; assumption.
Qed.

(** ** The recursion budget of [os.MkdirAll] *)

Lemma parent_shorter (path : string) :
  path ≠ "" → String.length (os.parent path) < String.length path.
Proof.
  unfold os.parent. induction path as [|c rest IH]; [contradiction|]. intros _.
  simpl os.trim_separators.
  destruct (os.trim_separators rest) as [|c' t] eqn:Ht.
  - destruct (filepath.IsPathSeparator c) eqn:Hc; simpl; [lia|]. rewrite Hc. simpl. lia.
  - assert (rest ≠ "") as Hrest by (intros ->; discriminate).
    specialize (IH Hrest).
    change (filepath.up_to_last_separator (String c (String c' t)))
      with (if filepath.has_separator (String c' t)
            then String c (filepath.up_to_last_separator (String c' t))
            else if filepath.IsPathSeparator c then String c "" else "").
    destruct rest; [contradiction|].
    destruct (filepath.has_separator (String c' t)); [simpl in *; lia|].
    destruct (filepath.IsPathSeparator c); simpl; lia.
Qed.

Lemma MkdirAll_rec_total (fuel : nat) (x : os.FS) (path : string) :
  String.length path ≤ fuel → ∃ r, os.MkdirAll_rec fuel x path = Some r.
Proof.
  revert x path. induction fuel as [|fuel IH]; intros x path Hlen; simpl;
    (destruct (os.Stat x path) as [[|c]|e]; [eauto | eauto |]);
    destruct (String.eqb_spec (os.parent path) "") as [Hp|Hp].
  - destruct (os.Mkdir x path); [eauto|]. destruct (os.Stat x path) as [[|c]|]; eauto.
  - destruct path; [now destruct Hp | simpl in Hlen; lia].
  - destruct (os.Mkdir x path); [eauto|]. destruct (os.Stat x path) as [[|c]|]; eauto.
  - assert (path ≠ "") as Hne by (intros ->; now destruct Hp).
    pose proof (parent_shorter path Hne) as Hlt.
    destruct (IH x (os.parent path) ltac:(lia)) as [[x1|e1] ->]; [|eauto].
    destruct (os.Mkdir x1 path); [eauto|]. destruct (os.Stat x1 path) as [[|c]|]; eauto.
Qed.

Lemma MkdirAll_total (x : os.FS) (path : string) :
  os.MkdirAll_rec (String.length path) x path = Some (os.MkdirAll x path).
Proof.
  unfold os.MkdirAll.
  now destruct (MkdirAll_rec_total (String.length path) x path (le_n _)) as [r ->].
Qed.

(** * Further properties of the backend *)

(** ** Construction: [NewBackend] and the factory *)

Lemma traverse_None_preserved (x x' : os.FS) (cur rest : list string) :
  preserved x x' → os.traverse x cur rest = None → os.traverse x' cur rest = None.
Proof.
  intros Hp. revert cur. induction rest as [|n rest IH]; intros cur; simpl; [auto|].
  destruct (os.node_at x cur) as [[|c]|] eqn:E; [|discriminate ..].
  rewrite (Hp cur _ E). apply IH.
Qed.

Lemma Mkdir_ok_inv (x x' : os.FS) (path : string) :
  os.Mkdir x path = ok x' →
  path ≠ "" ∧ os.traverse x [] (filepath.Abs (os.cwd x) path) = None ∧
  filepath.Abs (os.cwd x) path ≠ [] ∧
  os.node_at x (filepath.Abs (os.cwd x) path) = None ∧
  x' = os.put x (filepath.Abs (os.cwd x) path) os.Directory.
Proof.
  unfold os.Mkdir, os.locate.
  destruct (String.eqb_spec path "") as [|Hne]; [discriminate|].
  destruct (os.traverse x [] _) eqn:Ht; [discriminate|].
  destruct (os.node_at x _) eqn:Hn; [discriminate|].
  intros [= <-]. repeat split; try assumption.
  intros E. rewrite E in Hn. discriminate.
Qed.

Lemma put_vacant_preserved (x : os.FS) (q : list string) (n : os.node) :
  os.node_at x q = None → preserved x (os.put x q n).
Proof.
  intros Hq p m Hp. rewrite node_at_put_ne; [assumption|]. intros ->. congruence.
Qed.

Lemma put_directory_grown (x : os.FS) (q : list string) :
  grown_by_directories x (os.put x q os.Directory).
Proof.
  intros p m. destruct (decide (p = q)) as [->|Hne].
  - destruct q; simpl; [auto|]. rewrite lookup_insert_eq. intros [= <-]. auto.
  - rewrite node_at_put_ne by assumption. auto.
Qed.

Lemma preserved_refl (x : os.FS) : preserved x x.
Proof. now intros q n. Qed.

Lemma preserved_trans (x y z : os.FS) : preserved x y → preserved y z → preserved x z.
Proof. intros Hxy Hyz q n Hq. now apply Hyz, Hxy. Qed.

Lemma grown_refl (x : os.FS) : grown_by_directories x x.
Proof. intros q n. auto. Qed.

Lemma grown_trans (x y z : os.FS) :
  grown_by_directories x y → grown_by_directories y z → grown_by_directories x z.
Proof. intros Hxy Hyz q n Hq. apply Hyz in Hq as [Hq| ->]; [now apply Hxy | auto]. Qed.

Lemma Mkdir_grows (x x' : os.FS) (path : string) :
  os.Mkdir x path = ok x' →
  os.cwd x' = os.cwd x ∧ preserved x x' ∧ grown_by_directories x x'.
Proof.
  intros (_ & _ & _ & Hvac & ->)%Mkdir_ok_inv.
  split; [reflexivity|]. split; [now apply put_vacant_preserved | apply put_directory_grown].
Qed.

(** [os.MkdirAll] keeps what is there and adds nothing but directories. *)
Lemma MkdirAll_rec_grows (fuel : nat) (x x' : os.FS) (path : string) :
  os.MkdirAll_rec fuel x path = Some (ok x') →
  os.cwd x' = os.cwd x ∧ preserved x x' ∧ grown_by_directories x x'.
Proof.
  assert (∀ x, os.cwd x = os.cwd x ∧ preserved x x ∧ grown_by_directories x x) as Hrefl
    by (intros y; split; [reflexivity|]; split; [apply preserved_refl | apply grown_refl]).
  revert x x' path. induction fuel as [|fuel IH]; intros x x' path; simpl;
    (destruct (os.Stat x path) as [[|c]|e]; [intros [= <-]; apply Hrefl | discriminate |]);
    destruct (String.eqb (os.parent path) "").
  - destruct (os.Mkdir x path) as [x2|e2] eqn:Hmk; [intros [= <-]; eapply Mkdir_grows; eassumption|].
    destruct (os.Stat x path) as [[|c]|]; [intros [= <-]; apply Hrefl | discriminate ..].
  - discriminate.
  - destruct (os.Mkdir x path) as [x2|e2] eqn:Hmk; [intros [= <-]; eapply Mkdir_grows; eassumption|].
    destruct (os.Stat x path) as [[|c]|]; [intros [= <-]; apply Hrefl | discriminate ..].
  - destruct (os.MkdirAll_rec fuel x (os.parent path)) as [[x1|e1]|] eqn:Hrec;
      [|discriminate ..].
    apply IH in Hrec as (Hc1 & Hp1 & Hg1).
    assert (∀ y, os.cwd y = os.cwd x1 ∧ preserved x1 y ∧ grown_by_directories x1 y →
            os.cwd y = os.cwd x ∧ preserved x y ∧ grown_by_directories x y) as Hstep.
    { intros y (Hc & Hp & Hg). split; [congruence|].
      split; [eapply preserved_trans | eapply grown_trans]; eassumption. }
    destruct (os.Mkdir x1 path) as [x2|e2] eqn:Hmk;
      [intros [= <-]; apply Hstep; eapply Mkdir_grows; eassumption|].
    destruct (os.Stat x1 path) as [[|c]|]; [intros [= <-]; apply Hstep, Hrefl | discriminate ..].
Qed.

Lemma MkdirAll_grows (x x' : os.FS) (path : string) :
  os.MkdirAll x path = ok x' →
  os.cwd x' = os.cwd x ∧ preserved x x' ∧ grown_by_directories x x'.
Proof.
  intros H. apply (MkdirAll_rec_grows (String.length path) x x' path).
  now rewrite MkdirAll_total, H.
Qed.

Lemma Stat_after_Mkdir (x x' : os.FS) (path : string) :
  os.Mkdir x path = ok x' → os.Stat x' path = ok os.Directory.
Proof.
  intros (Hne & Ht & Hq & Hvac & ->)%Mkdir_ok_inv. apply Stat_ok.
  split; [assumption|]. unfold os.peek. cbn [os.cwd os.put]. split.
  - eapply traverse_None_preserved; [|exact Ht]. now apply put_vacant_preserved.
  - now apply node_at_put_eq.
Qed.

(** When [os.MkdirAll] succeeds the directory is there. *)
Lemma MkdirAll_rec_exists_after (fuel : nat) (x x' : os.FS) (path : string) :
  os.MkdirAll_rec fuel x path = Some (ok x') → os.Stat x' path = ok os.Directory.
Proof.
  assert (∀ x1, match os.Mkdir x1 path with
                | ok x2 => Some (ok x2)
                | fail e => match os.Stat x1 path with
                            | ok os.Directory => Some (ok x1)
                            | _ => Some (fail e)
                            end
                end = Some (ok x') → os.Stat x' path = ok os.Directory) as Hlast.
  { intros x1. destruct (os.Mkdir x1 path) as [x2|e2] eqn:Hmk;
      [intros [= <-]; eapply Stat_after_Mkdir; eassumption|].
    destruct (os.Stat x1 path) as [[|c]|] eqn:Hst; [now intros [= <-] | discriminate ..]. }
  destruct fuel as [|fuel]; simpl;
    (destruct (os.Stat x path) as [[|c]|e] eqn:Hst; [now intros [= <-] | discriminate |]);
    destruct (String.eqb (os.parent path) ""); try apply Hlast; try discriminate.
  destruct (os.MkdirAll_rec fuel x (os.parent path)) as [[x1|e1]|]; [|discriminate ..].
  apply Hlast.
Qed.

Lemma MkdirAll_exists_after (x x' : os.FS) (path : string) :
  os.MkdirAll x path = ok x' → os.Stat x' path = ok os.Directory.
Proof.
  intros H. apply (MkdirAll_rec_exists_after (String.length path) x x' path).
  now rewrite MkdirAll_total, H.
Qed.

(** X1. When the factory's [Create] (that is, [NewBackend] on the factory's
    base path) succeeds, the backend is open and has the base path as it
    was given, the base directory exists, every node the medium had is
    still there as it was, and whatever is new is a directory. *)
Theorem Create_gives_open_backend (base : string) (w w' : World) (b : Backend) :
  factory.Create (factory.NewFactory base) w = ((Some b, None), w') →
  b = mkBackend base false ∧
  os.Stat (fs w') base = ok os.Directory ∧
  os.cwd (fs w') = os.cwd (fs w) ∧
  preserved (fs w) (fs w') ∧ grown_by_directories (fs w) (fs w').
Proof.
  unfold factory.Create, factory.NewFactory, NewBackend, os_MkdirAll, bind, ret, sys, change.
  cbn [factory.basePath].
  destruct (os.MkdirAll (fs w) base) as [x'|e] eqn:Hmk; [|discriminate].
  intros [= <- <-]. cbn [fs]. split; [reflexivity|].
  split; [now apply (MkdirAll_exists_after (fs w))|].
  now apply MkdirAll_grows in Hmk.
Qed.

Lemma Create_gives_open_backend_witness :
  os.Stat
    (fs (snd (factory.Create (factory.NewFactory "/var/spool/new/") spool_world)))
    "/var/spool/new/" = ok os.Directory.
Proof.
  destruct (factory.Create (factory.NewFactory "/var/spool/new/") spool_world)
    as [[[b|] [e|]] w'] eqn:E; try (vm_compute in E; discriminate).
  exact (proj1 (proj2 (Create_gives_open_backend "/var/spool/new/" spool_world w' b E))).
Defined.





(** ** Identifiers and their paths *)

Lemma append_inj_l (a a' s : string) : a +:+ s = a' +:+ s → a = a'.
Proof.
  intros E. assert (String.length a = String.length a') as Hlen.
  { apply (f_equal String.length) in E. rewrite !length_append in E. lia. }
  revert a' E Hlen. induction a as [|c a IH]; intros [|c' a'] E Hlen;
    try reflexivity; try discriminate.
  simpl in E. injection E as -> E. f_equal. apply IH; [assumption|].
  simpl in Hlen. lia.
Qed.

Lemma data_locations_differ (cwd : list string) (b : Backend) (id id' : string) :
  validateMessageID b id = None → validateMessageID b id' = None →
  id ≠ id' →
  filepath.Abs cwd (getDataPath b id) ≠ filepath.Abs cwd (getDataPath b id').
Proof.
  intros Hv Hv' Hne. rewrite !Abs_getDataPath by assumption.
  intros E%app_inv_head. injection E as _ E. now apply append_inj_l in E.
Qed.

(** X4. Different valid identifiers never share a blob: their derived
    paths name different locations, whatever the working directory, and so
    are different paths. *)
Theorem getDataPath_injective (cwd : list string) (b : Backend) (id id' : string) :
  validateMessageID b id = None → validateMessageID b id' = None →
  id ≠ id' →
  filepath.Abs cwd (getDataPath b id) ≠ filepath.Abs cwd (getDataPath b id') ∧
  getDataPath b id ≠ getDataPath b id'.
Proof.
  intros Hv Hv' Hne.
  pose proof (data_locations_differ cwd b id id' Hv Hv' Hne) as H.
  split; [assumption|]. intros E. now rewrite E in H.
Qed.

Lemma getDataPath_injective_witness :
  getDataPath (mkBackend "/var/spool/data" false) "ab1" ≠
  getDataPath (mkBackend "/var/spool/data" false) "ab2".
Proof.
  apply (getDataPath_injective [] (mkBackend "/var/spool/data" false) "ab1" "ab2");
    [reflexivity | reflexivity | discriminate].
Defined.

Lemma prefix_append (sub s : string) :
  String.prefix sub s = true ↔ ∃ c, s = sub +:+ c.
Proof.
  revert s. induction sub as [|x sub IH]; intros s.
  - split; [intros _; now exists s | intros _; now destruct s].
  - destruct s as [|y s]; simpl.
    + split; [discriminate | intros [c [=]]].
    + destruct (ascii_dec x y) as [->|Hxy].
      * rewrite IH. split; intros [c E]; exists c; [now rewrite E | now injection E].
      * split; [discriminate | intros [c E]; injection E as -> _; contradiction].
Qed.

Lemma Contains_append (s sub : string) :
  strings.Contains s sub = true ↔ ∃ a c, s = a +:+ sub +:+ c.
Proof.
  induction s as [|x s IH].
  - change (strings.Contains "" sub) with (String.prefix sub "" || false).
    rewrite orb_false_r, prefix_append. split.
    + intros [c E]. now exists "", c.
    + intros (a & c & E). symmetry in E. apply append_eq_empty in E as [-> E]. eauto.
  - change (strings.Contains (String x s) sub)
      with (String.prefix sub (String x s) || strings.Contains s sub).
    rewrite orb_true_iff, prefix_append, IH. split.
    + intros [[c E]|(a & c & E)]; [now exists "", c|].
      exists (String x a), c. now rewrite E.
    + intros (a & c & E). destruct a as [|y a]; [left; now exists c|].
      right. simpl in E. injection E as -> E. eauto.
Qed.

Lemma ContainsAny_separators (s : string) :
  strings.ContainsAny s (String "/" (String backslash "")) = true ↔
  ∃ a ch c, s = a +:+ String ch c ∧ (ch = "/"%char ∨ ch = backslash).
Proof.
  induction s as [|x s IH].
  - split; [discriminate | intros (a & ch & c & E & _); now destruct a].
  - change (strings.ContainsAny (String x s) (String "/" (String backslash "")))
      with ((Ascii.eqb "/" x || (Ascii.eqb backslash x || false))
            || strings.ContainsAny s (String "/" (String backslash ""))).
    rewrite !orb_true_iff, IH, !Ascii.eqb_eq. split.
    + intros [[<-|[<-|[=]]]|(a & ch & c & -> & Hch)].
      * exists "", "/"%char, s. auto.
      * exists "", backslash, s. auto.
      * exists (String x a), ch, c. auto.
    + intros (a & ch & c & E & Hch). destruct a as [|y a]; simpl in E.
      * injection E as -> ->. left. destruct Hch as [->| ->]; auto.
      * injection E as -> ->. right. eauto 6.
Qed.

(** X5. [validateMessageID] accepts exactly the identifiers that are not
    empty, are at most 255 bytes long, have no two dots in a row anywhere
    and contain neither a forward nor a back slash. *)
Theorem validateMessageID_accepts (b : Backend) (id : string) :
  validateMessageID b id = None ↔
  id ≠ "" ∧ String.length id ≤ 255 ∧
  (∀ a c, id ≠ a +:+ ".." +:+ c) ∧
  (∀ a ch c, id = a +:+ String ch c → ch ≠ "/"%char ∧ ch ≠ backslash).
Proof.
  split.
  - intros (Hne & Hdd & Hsep & Hlen)%validateMessageID_None.
    split; [assumption|]. split; [assumption|]. split.
    + intros a c E. assert (strings.Contains id ".." = true) as H
        by (apply Contains_append; eauto). congruence.
    + intros a ch c E.
      assert (¬ (ch = "/"%char ∨ ch = backslash)) as H; [|tauto].
      intros Hch. assert (strings.ContainsAny id (String "/" (String backslash "")) = true)
        as H by (apply ContainsAny_separators; eauto 6). congruence.
  - intros (Hne & Hlen & Hdd & Hsep). unfold validateMessageID.
    apply String.eqb_neq in Hne as ->.
    destruct (strings.Contains id "..") eqn:E1.
    { apply Contains_append in E1 as (a & c & E). now destruct (Hdd a c). }
    destruct (strings.ContainsAny id _) eqn:E2.
    { apply ContainsAny_separators in E2 as (a & ch & c & E & Hch).
      destruct (Hsep a ch c E). tauto. }
    apply Nat.ltb_ge in Hlen. now rewrite Hlen.
Qed.

(** ** What an operation leaves alone *)

Lemma Stat_file_at (x : os.FS) (path : string) (c : list byte) :
  os.Stat x path = ok (os.Regular c) ↔
  path ≠ "" ∧ file_at x (filepath.Abs (os.cwd x) path) c.
Proof. rewrite Stat_ok. unfold file_at, os.peek. tauto. Qed.

Lemma traverse_agree_off (x x' : os.FS) (cur rest : list string) :
  (∀ q n r, rest = q ++ n :: r → os.node_at x' (cur ++ q) = os.node_at x (cur ++ q)) →
  os.traverse x' cur rest = os.traverse x cur rest.
Proof.
  revert cur. induction rest as [|n rest IH]; intros cur H; simpl; [reflexivity|].
  pose proof (H [] n rest eq_refl) as H0. rewrite app_nil_r in H0. rewrite H0.
  destruct (os.node_at x cur) as [[|c]|]; try reflexivity.
  apply IH. intros q m r ->. rewrite <- app_assoc. apply (H (n :: q) m r). reflexivity.
Qed.

Lemma traverse_None_child (x : os.FS) (q : list string) (n : string) (rest : list string) :
  os.traverse x [] (q ++ n :: rest) = None →
  os.node_at x q = Some os.Directory ∧
  (rest = [] ∨ os.node_at x (q ++ [n]) = Some os.Directory).
Proof.
  rewrite traverse_app. destruct (os.traverse x [] q); [discriminate|].
  simpl. destruct (os.node_at x q) as [[|c]|]; [|discriminate ..].
  intros H. split; [reflexivity|]. destruct rest as [|m rest]; [now left|].
  right. simpl in H. now destruct (os.node_at x (q ++ [n])) as [[|c]|].
Qed.

Lemma entries_not_empty (x : os.FS) (k : list string) (n : os.node) :
  os.nodes x !! k = Some n → k ≠ [] → os.entries x (removelast k) ≠ [].
Proof.
  intros Hk Hne. apply last_is_Some in Hne as [name Hname].
  apply (elem_of_not_nil name). unfold os.entries. apply list_elem_of_omap.
  exists (k, n). split; [now apply elem_of_map_to_list|].
  cbn [fst]. now rewrite decide_True.
Qed.

(** A location that holds no directory, or an empty one, is above no file. *)
Lemma not_above_file (x : os.FS) (q t : list string) (c : list byte) :
  file_at x t c →
  os.node_at x q ≠ Some os.Directory ∨ os.entries x q = [] →
  ¬ ∃ n rest, t = q ++ n :: rest.
Proof.
  intros [Ht Hn] Hq (n & rest & ->).
  destruct (traverse_None_child x q n rest Ht) as [Hdir Hchild].
  destruct Hq as [Hq|Hq]; [contradiction|].
  assert (∃ m, os.nodes x !! (q ++ [n]) = Some m) as [m Hm].
  { destruct Hchild as [->|Hc].
    - exists (os.Regular c). destruct q; exact Hn.
    - exists os.Directory. destruct q; exact Hc. }
  apply (entries_not_empty x (q ++ [n]) m Hm); [now destruct q|].
  now rewrite removelast_last.
Qed.

Lemma file_at_off (x x' : os.FS) (q t : list string) (c : list byte) :
  file_at x t c →
  (∀ p, p ≠ q → os.node_at x' p = os.node_at x p) →
  q ≠ t → (¬ ∃ n rest, t = q ++ n :: rest) →
  file_at x' t c.
Proof.
  intros [Ht Hn] Hsame Hne Habove. split.
  - rewrite <- Ht. apply traverse_agree_off. intros p n r ->. simpl.
    apply Hsame. intros ->. apply Habove. eauto.
  - rewrite <- Hn. apply Hsame. congruence.
Qed.

Lemma file_at_preserved (x x' : os.FS) (t : list string) (c : list byte) :
  preserved x x' → file_at x t c → file_at x' t c.
Proof.
  intros Hp [Ht Hn]. split; [now apply (traverse_None_preserved x) | now apply Hp].
Qed.

Lemma Remove_frame (x x' : os.FS) (path : string) (t : list string) (c : list byte) :
  os.Remove x path = ok x' → file_at x t c →
  filepath.Abs (os.cwd x) path ≠ t → file_at x' t c.
Proof.
  intros Hrm Hfile Hne. pose proof (Remove_ok_drop x x' path Hrm) as ->.
  apply (file_at_off x _ (filepath.Abs (os.cwd x) path)); try assumption.
  - intros p Hp. now apply node_at_drop_ne.
  - apply (not_above_file x _ t c Hfile).
    revert Hrm. unfold os.Remove, os.locate.
    destruct (String.eqb _ "."); [discriminate|].
    destruct (String.eqb _ ".."); [discriminate|].
    destruct (String.eqb path ""); [discriminate|].
    destruct (os.traverse x [] _); [discriminate|].
    destruct (filepath.Abs (os.cwd x) path) as [|n q]; [discriminate|].
    destruct (os.node_at x (n :: q)) as [[|c']|]; [|left; discriminate | discriminate].
    destruct (os.entries x (n :: q)); [now right | discriminate].
Qed.

Lemma Create_ok_inv (x x' : os.FS) (path : string) (f : os.File) :
  os.Create x path = ok (f, x') →
  f = os.mkFile path (filepath.Abs (os.cwd x) path) ∧
  path ≠ "" ∧ os.traverse x [] (filepath.Abs (os.cwd x) path) = None ∧
  os.node_at x (filepath.Abs (os.cwd x) path) ≠ Some os.Directory ∧
  x' = os.put x (filepath.Abs (os.cwd x) path) (os.Regular []).
Proof.
  unfold os.Create, os.locate.
  destruct (String.eqb_spec path "") as [|Hne]; [discriminate|].
  destruct (os.traverse x [] _) eqn:Ht; [discriminate|].
  destruct (os.node_at x _) as [[|c]|] eqn:Hn; [discriminate | |];
    intros [= <- <-]; repeat split; try assumption; discriminate.
Qed.

Lemma Create_frame (x x' : os.FS) (path : string) (f : os.File)
    (t : list string) (c : list byte) :
  os.Create x path = ok (f, x') → file_at x t c →
  filepath.Abs (os.cwd x) path ≠ t → file_at x' t c.
Proof.
  intros (_ & _ & _ & Hnd & ->)%Create_ok_inv Hfile Hne.
  apply (file_at_off x _ (filepath.Abs (os.cwd x) path)); try assumption.
  - intros p Hp. now apply node_at_put_ne.
  - apply (not_above_file x _ t c Hfile). now left.
Qed.

Lemma Write_ok_inv (x x' : os.FS) (f : os.File) (data : list byte) :
  os.Write x f data = ok x' →
  ∃ old, os.node_at x (os.loc f) = Some (os.Regular old) ∧
         x' = os.put x (os.loc f) (os.Regular (old ++ data)).
Proof.
  unfold os.Write. destruct (os.node_at x (os.loc f)) as [[|old]|]; try discriminate.
  intros [= <-]. eauto.
Qed.

Lemma Write_frame (x x' : os.FS) (f : os.File) (data : list byte)
    (t : list string) (c : list byte) :
  os.Write x f data = ok x' → file_at x t c → os.loc f ≠ t → file_at x' t c.
Proof.
  intros (old & Hold & ->)%Write_ok_inv Hfile Hne.
  apply (file_at_off x _ (os.loc f)); try assumption.
  - intros p Hp. now apply node_at_put_ne.
  - apply (not_above_file x _ t c Hfile). left. congruence.
Qed.

Lemma ReadDir_ok_inv (x : os.FS) (path : string) (l : list string) :
  os.ReadDir x path = ok l →
  os.node_at x (filepath.Abs (os.cwd x) path) = Some os.Directory ∧
  l = os.entries x (filepath.Abs (os.cwd x) path).
Proof.
  unfold os.ReadDir, os.locate.
  destruct (String.eqb path ""); [discriminate|].
  destruct (os.traverse x [] _); [discriminate|].
  destruct (os.node_at x _) as [[|c]|]; [|discriminate ..].
  intros [= <-]. auto.
Qed.

(** The cleanup leaves every regular file where it is. *)
Lemma cleanupEmptyDirs_rec_frame (fuel : nat) (b : Backend) (dir : string) (w w' : World)
    (t : list string) (c : list byte) :
  cleanupEmptyDirs_rec fuel b dir w = Some w' →
  file_at (fs w) t c → file_at (fs w') t c.
Proof.
  revert dir w. induction fuel as [|fuel IH]; intros dir w; simpl;
    (destruct (String.eqb dir (basePath b)); [now intros [= <-]|]);
    destruct (os_ReadDir_effect dir w) as (r & Hrd & ->);
    (destruct r as [[|e es]|e]; [| now intros [= <-] ..]);
    set (w1 := mkWorld (fs w) (trace w ++ [IO (CallReadDir dir)]));
    (destruct (os_Remove_effect dir w1) as [(x' & Hrm & ->)|(e & Hrm & ->)];
     [| now intros [= <-]]); try discriminate.
  intros Hrec Hfile. apply (IH _ _ Hrec). cbn [fs] in *.
  apply (Remove_frame (fs w) x' dir); try assumption.
  apply ReadDir_ok_inv in Hrd as [Hdir _]. destruct Hfile as [_ Hn]. congruence.
Qed.

Lemma cleanupEmptyDirs_frame (b : Backend) (dir : string) (w : World)
    (t : list string) (c : list byte) :
  file_at (fs w) t c → file_at (fs (snd (cleanupEmptyDirs b dir w))) t c.
Proof.
  intros Hfile. destruct (cleanupEmptyDirs_total b dir w) as (w' & Hrec & ->).
  cbn [snd]. exact (cleanupEmptyDirs_rec_frame _ b dir w w' t c Hrec Hfile).
Qed.

Lemma Create_cwd (x x' : os.FS) (path : string) (f : os.File) :
  os.Create x path = ok (f, x') →
  os.cwd x' = os.cwd x ∧ os.loc f = filepath.Abs (os.cwd x) path.
Proof. now intros (-> & _ & _ & _ & ->)%Create_ok_inv. Qed.

Lemma Write_cwd (x x' : os.FS) (f : os.File) (data : list byte) :
  os.Write x f data = ok x' → os.cwd x' = os.cwd x.
Proof. now intros (old & _ & ->)%Write_ok_inv. Qed.

Lemma store_frame (b : Backend) (ctx : Context) (id : string)
    (data : Reader) (w : World) (path : string) (c : list byte) :
  os.Stat (fs w) path = ok (os.Regular c) →
  filepath.Abs (os.cwd (fs w)) path ≠ filepath.Abs (os.cwd (fs w)) (getDataPath b id) →
  os.Stat (fs (snd (StoreData b ctx id data w))) path = ok (os.Regular c) ∧
  os.Stat (fs (snd (GetDataWriter b ctx id w))) path = ok (os.Regular c).
Proof.
  intros [Hp Hfile]%Stat_file_at Hne.
  assert (∀ x', os.cwd x' = os.cwd (fs w) →
          file_at x' (filepath.Abs (os.cwd (fs w)) path) c →
          os.Stat x' path = ok (os.Regular c)) as Hback.
  { intros x' Hc Hf. apply Stat_file_at. rewrite Hc. auto. }
  assert (∀ f x1 x2,
            os.MkdirAll (fs w) (filepath.Dir (getDataPath b id)) = ok x1 →
            os.Create x1 (getDataPath b id) = ok (f, x2) →
            os.cwd x1 = os.cwd (fs w) ∧ os.cwd x2 = os.cwd (fs w) ∧
            file_at x1 (filepath.Abs (os.cwd (fs w)) path) c ∧
            file_at x2 (filepath.Abs (os.cwd (fs w)) path) c ∧
            os.loc f ≠ filepath.Abs (os.cwd (fs w)) path) as Hsteps.
  { intros f x1 x2 Hmk Hcr.
    apply MkdirAll_grows in Hmk as (Hc1 & Hp1 & _).
    pose proof (file_at_preserved _ _ _ _ Hp1 Hfile) as Hf1.
    destruct (Create_cwd _ _ _ _ Hcr) as [Hc2 Hloc].
    split; [assumption|]. split; [congruence|]. split; [assumption|].
    split; [|rewrite Hloc, Hc1; congruence].
    apply (Create_frame x1 x2 (getDataPath b id) f); try assumption.
    rewrite Hc1. congruence. }
  split.
  - unfold StoreData. destruct (validateMessageID b id); [now apply Hback|].
    unfold io_Copy, file_Close, os_MkdirAll, os_Create, select_Done, bind, emit, ret,
      sys, change. cbn [fs trace snd].
    destruct (closed b); [now apply Hback|]. cbn [fs trace snd].
    destruct (ctx_Err ctx); [now apply Hback|]. cbn [fs trace snd].
    destruct (os.MkdirAll (fs w) _) as [x1|e1] eqn:Hmk; cbn [fs trace snd];
      [|now apply Hback].
    destruct (os.Create x1 _) as [[f x2]|e2] eqn:Hcr; cbn [fs trace snd].
    + destruct (Hsteps f x1 x2 eq_refl Hcr) as (Hc1 & Hc2 & Hf1 & Hf2 & Hloc).
      destruct (os.Write x2 f (stream data)) as [x3|e3] eqn:Hwr; cbn [fs trace snd].
      * pose proof (Write_cwd _ _ _ _ Hwr) as Hc3.
        pose proof (Write_frame _ _ _ _ _ _ Hwr Hf2 Hloc) as Hf3.
        destruct (failure data); cbn [fs trace snd]; apply Hback; congruence || assumption.
      * now apply Hback.
    + apply MkdirAll_grows in Hmk as (Hc1 & Hp1 & _).
      apply Hback; [assumption|]. now apply (file_at_preserved (fs w)).
  - unfold GetDataWriter. destruct (validateMessageID b id); [now apply Hback|].
    unfold os_MkdirAll, os_Create, select_Done, bind, emit, ret, sys, change.
    cbn [fs trace snd].
    destruct (closed b); [now apply Hback|]. cbn [fs trace snd].
    destruct (ctx_Err ctx); [now apply Hback|]. cbn [fs trace snd].
    destruct (os.MkdirAll (fs w) _) as [x1|e1] eqn:Hmk; cbn [fs trace snd];
      [|now apply Hback].
    destruct (os.Create x1 _) as [[f x2]|e2] eqn:Hcr; cbn [fs trace snd].
    + destruct (Hsteps f x1 x2 eq_refl Hcr) as (Hc1 & Hc2 & Hf1 & Hf2 & Hloc).
      now apply Hback.
    + apply MkdirAll_grows in Hmk as (Hc1 & Hp1 & _).
      apply Hback; [assumption|]. now apply (file_at_preserved (fs w)).
Qed.

Lemma DeleteData_frame (b : Backend) (ctx : Context) (id : string)
    (w : World) (path : string) (c : list byte) :
  os.Stat (fs w) path = ok (os.Regular c) →
  filepath.Abs (os.cwd (fs w)) path ≠ filepath.Abs (os.cwd (fs w)) (getDataPath b id) →
  os.Stat (fs (snd (DeleteData b ctx id w))) path = ok (os.Regular c).
Proof.
  intros [Hp Hfile]%Stat_file_at Hne.
  assert (∀ x', os.cwd x' = os.cwd (fs w) →
          file_at x' (filepath.Abs (os.cwd (fs w)) path) c →
          os.Stat x' path = ok (os.Regular c)) as Hback.
  { intros x' Hc Hf. apply Stat_file_at. rewrite Hc. auto. }
  unfold DeleteData. destruct (validateMessageID b id); [now apply Hback|].
  unfold select_Done, bind, emit, ret. cbn [fs trace snd].
  destruct (closed b); [now apply Hback|]. cbn [fs trace snd].
  destruct (ctx_Err ctx); [now apply Hback|]. cbn [fs trace snd].
  match goal with |- context [os_Remove ?p ?v] =>
    destruct (os_Remove_effect p v) as [(x' & Hrm & ->)|(e & Hrm & ->)] end;
    cbn [fs trace snd] in *.
  - match goal with |- context [cleanupEmptyDirs b ?d ?v] =>
      pose proof (cleanupEmptyDirs_frame b d v _ c
                    (Remove_frame _ _ _ _ _ Hrm Hfile (not_eq_sym Hne))) as Hf;
      destruct (cleanupEmptyDirs_effect b d v) as (w' & E & Hc & _) end.
    rewrite E in *. cbn [fs trace snd] in *. apply Hback; [|assumption].
    apply Remove_shrinks in Hrm as (Hc' & _). congruence.
  - destruct (IsNotExist e); cbn [negb fs trace snd]; [|now apply Hback].
    match goal with |- context [cleanupEmptyDirs b ?d ?v] =>
      pose proof (cleanupEmptyDirs_frame b d v _ c Hfile) as Hf;
      destruct (cleanupEmptyDirs_effect b d v) as (w' & E & Hc & _) end.
    rewrite E in *. cbn [fs trace snd] in *. now apply Hback.
Qed.

(** X6. [StoreData] and [GetDataWriter] leave every regular file alone that
    is not at the data path of the identifier: whatever the state of the
    backend and the outcome of the call, such a file is afterwards where it
    was, with the content it had. *)
Theorem store_keeps_other_files (b : Backend) (ctx : Context) (id : string)
    (data : Reader) (w : World) (path : string) (c : list byte) :
  os.Stat (fs w) path = ok (os.Regular c) →
  filepath.Abs (os.cwd (fs w)) path ≠ filepath.Abs (os.cwd (fs w)) (getDataPath b id) →
  os.Stat (fs (snd (StoreData b ctx id data w))) path = ok (os.Regular c) ∧
  os.Stat (fs (snd (GetDataWriter b ctx id w))) path = ok (os.Regular c).
Proof. apply store_frame. Qed.

(** X7. [DeleteData] leaves every regular file alone that is not at the
    data path of the identifier, whatever the state of the backend and the
    outcome of the call: the cleanup removes empty directories only. *)
Theorem DeleteData_keeps_other_files (b : Backend) (ctx : Context) (id : string)
    (w : World) (path : string) (c : list byte) :
  os.Stat (fs w) path = ok (os.Regular c) →
  filepath.Abs (os.cwd (fs w)) path ≠ filepath.Abs (os.cwd (fs w)) (getDataPath b id) →
  os.Stat (fs (snd (DeleteData b ctx id w))) path = ok (os.Regular c).
Proof. apply DeleteData_frame. Qed.

Lemma store_keeps_other_files_witness :
  os.Stat
    (fs (snd (StoreData (mkBackend "/var/spool/data" false) background "ab2"
                (mkReader [x21] None) (mkWorld spool_blob []))))
    "/var/spool/data/ab/ab1.data" = ok (os.Regular [x68; x69]).
Proof.
  apply (store_keeps_other_files (mkBackend "/var/spool/data" false) background "ab2"
           (mkReader [x21] None) (mkWorld spool_blob []) "/var/spool/data/ab/ab1.data"
           [x68; x69]); [reflexivity | vm_compute; discriminate].
Defined.

Lemma DeleteData_keeps_other_files_witness :
  os.Stat
    (fs (snd (DeleteData (mkBackend "/var/spool/data" false) background "ab2"
                (mkWorld spool_blob []))))
    "/var/spool/data/ab/ab1.data" = ok (os.Regular [x68; x69]).
Proof.
  apply (DeleteData_keeps_other_files (mkBackend "/var/spool/data" false) background "ab2"
           (mkWorld spool_blob []) "/var/spool/data/ab/ab1.data" [x68; x69]);
    [reflexivity | vm_compute; discriminate].
Defined.

Lemma stored_Some (x : os.FS) (b : Backend) (id : string) (c : list byte) :
  stored x b id = Some c ↔ os.Stat x (getDataPath b id) = ok (os.Regular c).
Proof.
  unfold stored. destruct (os.Stat x (getDataPath b id)) as [[|c']|]; split;
    try discriminate; now intros [= ->].
Qed.

(** X8. Operations on one identifier do not touch the blob of another: for
    a valid identifier with a stored blob, [StoreData], [GetDataWriter] and
    [DeleteData] on any different identifier leave that blob as it is. *)
Theorem other_blobs_untouched (b : Backend) (ctx : Context) (id id' : string)
    (data : Reader) (w : World) (c : list byte) :
  validateMessageID b id' = None → id ≠ id' →
  stored (fs w) b id' = Some c →
  stored (fs (snd (StoreData b ctx id data w))) b id' = Some c ∧
  stored (fs (snd (GetDataWriter b ctx id w))) b id' = Some c ∧
  stored (fs (snd (DeleteData b ctx id w))) b id' = Some c.
Proof.
  intros Hv' Hne Hst. rewrite !stored_Some in *.
  destruct (validateMessageID b id) as [e|] eqn:Hv.
  - unfold StoreData, GetDataWriter, DeleteData. rewrite Hv. auto.
  - assert (filepath.Abs (os.cwd (fs w)) (getDataPath b id') ≠
            filepath.Abs (os.cwd (fs w)) (getDataPath b id)) as Hloc
      by (apply data_locations_differ; auto).
    destruct (store_frame b ctx id data w _ c Hst Hloc) as [H1 H2].
    split; [assumption|]. split; [assumption|].
    now apply DeleteData_frame.
Qed.

Lemma other_blobs_untouched_witness :
  stored
    (fs (snd (DeleteData (mkBackend "/var/spool/data" false) background "ab2"
                (mkWorld spool_blob []))))
    (mkBackend "/var/spool/data" false) "ab1" = Some [x68; x69].
Proof.
  apply (other_blobs_untouched (mkBackend "/var/spool/data" false) background "ab2" "ab1"
           (mkReader [] None) (mkWorld spool_blob []) [x68; x69]);
    [reflexivity | discriminate | reflexivity].
Defined.

(** ** What [StoreData] reports *)

Lemma file_at_put (x : os.FS) (q : list string) (c : list byte) :
  os.traverse x [] q = None → q ≠ [] → file_at (os.put x q (os.Regular c)) q c.
Proof.
  intros Ht Hq. split; [|now apply node_at_put_eq].
  rewrite <- Ht. apply traverse_agree_off. intros p n r E. simpl.
  apply node_at_put_ne. intros ->.
  apply (f_equal (@length string)) in E. rewrite length_app in E. simpl in E. lia.
Qed.

(** A file just created holds what is written to it. *)
Lemma Create_Write (x1 x2 x3 : os.FS) (path : string) (f : os.File) (data : list byte) :
  os.Create x1 path = ok (f, x2) → os.Write x2 f data = ok x3 →
  os.Stat x3 path = ok (os.Regular data).
Proof.
  intros (-> & Hne & Ht & Hnd & ->)%Create_ok_inv (old & Hold & ->)%Write_ok_inv.
  cbn [os.loc] in *.
  assert (filepath.Abs (os.cwd x1) path ≠ []) as Hq
    by (intros E; rewrite E in Hnd; now apply Hnd).
  rewrite node_at_put_eq in Hold by assumption. injection Hold as <-.
  apply Stat_file_at. split; [assumption|]. cbn [os.cwd os.put app].
  apply (file_at_put (os.put x1 _ (os.Regular []))); [|assumption].
  now apply file_at_put.
Qed.

(** X9. [StoreData] never reports a byte count together with an error: with
    an error the count is 0; without an error the count is the length of
    the stream, the stream ended without failure, and the blob on the
    medium is exactly the stream. *)
Theorem StoreData_result (b : Backend) (ctx : Context) (id : string) (data : Reader)
    (w w' : World) (size : Z) (err : option error) :
  StoreData b ctx id data w = ((size, err), w') →
  (err ≠ None → size = 0%Z) ∧
  (err = None →
   size = Z.of_nat (length (stream data)) ∧ failure data = None ∧
   stored (fs w') b id = Some (stream data)).
Proof.
  unfold StoreData. destruct (validateMessageID b id);
    [intros [= <- <- <-]; split; [reflexivity | discriminate]|].
  unfold io_Copy, file_Close, os_MkdirAll, os_Create, select_Done, bind, emit, ret,
    sys, change. cbn [fs trace].
  destruct (closed b); [intros [= <- <- <-]; split; [reflexivity | discriminate]|].
  cbn [fs trace].
  destruct (ctx_Err ctx); [intros [= <- <- <-]; split; [reflexivity | discriminate]|].
  cbn [fs trace].
  destruct (os.MkdirAll (fs w) _) as [x1|e1]; cbn [fs trace];
    [|intros [= <- <- <-]; split; [reflexivity | discriminate]].
  destruct (os.Create x1 _) as [[f x2]|e2] eqn:Hcr; cbn [fs trace];
    [|intros [= <- <- <-]; split; [reflexivity | discriminate]].
  destruct (os.Write x2 f (stream data)) as [x3|e3] eqn:Hwr; cbn [fs trace];
    [|intros [= <- <- <-]; split; [reflexivity | discriminate]].
  destruct (failure data) as [e|];
    intros [= <- <- <-]; (split; [intros H; reflexivity || now destruct H|]);
    [discriminate|].
  intros _. split; [reflexivity|]. split; [reflexivity|].
  cbn [fs]. apply stored_Some. now apply (Create_Write x1 x2 x3 _ f).
Qed.

Lemma StoreData_result_witness :
  stored
    (fs (snd (StoreData (mkBackend "/var/spool/data" false) background "ab1"
                (mkReader [x21] None) spool_world)))
    (mkBackend "/var/spool/data" false) "ab1" = Some [x21].
Proof.
  refine (proj2 (proj2 (proj2
    (StoreData_result (mkBackend "/var/spool/data" false) background "ab1"
       (mkReader [x21] None) spool_world
       (snd (StoreData (mkBackend "/var/spool/data" false) background "ab1"
               (mkReader [x21] None) spool_world)) 1%Z None _) eq_refl))).
  vm_compute. reflexivity.
Defined.



(** ** Failures of the medium *)

(** X11. With the base directory in place, a regular file where the shard
    directory belongs makes [StoreData] and [GetDataWriter] fail with the
    wrapped error of the directory creation, and a directory where the blob
    belongs makes them fail with the wrapped error of the file creation; in
    both cases the medium stays as it is. *)
Theorem store_blocked (b : Backend) (ctx : Context) (id : string) (data : Reader)
    (w : World) :
  validateMessageID b id = None → closed b = false → ctx_Err ctx = None →
  os.Stat (fs w) (basePath b) = ok os.Directory →
  (∀ c, os.peek (fs w) (filepath.Dir (getDataPath b id)) = Some (os.Regular c) →
   ∀ e, e = Wrapf "failed to create data directory"
              (OsError (mkPathError "mkdir" (filepath.Dir (getDataPath b id)) ENOTDIR)) →
   fst (StoreData b ctx id data w) = (0%Z, Some e) ∧
   fst (GetDataWriter b ctx id w) = (None, Some e) ∧
   fs (snd (StoreData b ctx id data w)) = fs w ∧
   fs (snd (GetDataWriter b ctx id w)) = fs w) ∧
  (os.peek (fs w) (filepath.Dir (getDataPath b id)) = Some os.Directory →
   os.peek (fs w) (getDataPath b id) = Some os.Directory →
   ∀ e, e = Wrapf "failed to create data file"
              (OsError (mkPathError "open" (getDataPath b id) EISDIR)) →
   fst (StoreData b ctx id data w) = (0%Z, Some e) ∧
   fst (GetDataWriter b ctx id w) = (None, Some e) ∧
   fs (snd (StoreData b ctx id data w)) = fs w ∧
   fs (snd (GetDataWriter b ctx id w)) = fs w).
Proof.
  intros Hv Hopen Hlive Hbase. unfold os.peek.
  rewrite (Abs_dd b id Hv), (Abs_dp b id Hv).
  split.
  - intros c HD e ->.
    assert (os.MkdirAll (fs w) (filepath.Dir (getDataPath b id)) =
            fail (mkPathError "mkdir" (filepath.Dir (getDataPath b id)) ENOTDIR)) as Hmk.
    { unfold os.MkdirAll.
      destruct (String.length _); simpl; now rewrite (Stat_dd b id Hv), HD. }
    unfold StoreData, GetDataWriter. rewrite Hv, Hopen.
    unfold os_MkdirAll, select_Done, bind, emit, ret, sys, change.
    cbn [fs trace]. rewrite Hlive. cbn [fs trace]. rewrite Hmk. cbn [fs trace fst snd].
    auto.
  - intros HD HQ e ->.
    assert (os.MkdirAll (fs w) (filepath.Dir (getDataPath b id)) = ok (fs w)) as Hmk.
    { rewrite (MkdirAll_dd b id Hv) by (assumption || (intros c; rewrite HD; discriminate)).
      now rewrite HD. }
    assert (os.Create (fs w) (getDataPath b id) =
            fail (mkPathError "open" (getDataPath b id) EISDIR)) as Hcr.
    { unfold os.Create.
      rewrite locate_eq, (Abs_dp b id Hv), traverse_dp, HD, HQ
        by (assumption || now apply dp_not_empty). reflexivity. }
    unfold StoreData, GetDataWriter. rewrite Hv, Hopen.
    unfold os_MkdirAll, os_Create, select_Done, bind, emit, ret, sys, change.
    cbn [fs trace]. rewrite Hlive. cbn [fs trace]. rewrite Hmk. cbn [fs trace].
    rewrite Hcr. cbn [fs trace fst snd]. auto.
Qed.

Lemma store_blocked_witness :
  fst (StoreData (mkBackend "/var/spool/data" false) background "ab1"
         (mkReader [x21] None)
         (mkWorld (os.put spool ["var"; "spool"; "data"; "ab"] (os.Regular [])) [])) =
  (0%Z, Some (Wrapf "failed to create data directory"
                (OsError (mkPathError "mkdir" "/var/spool/data/ab" ENOTDIR)))).
Proof.
  destruct (store_blocked (mkBackend "/var/spool/data" false) background "ab1"
              (mkReader [x21] None)
              (mkWorld (os.put spool ["var"; "spool"; "data"; "ab"] (os.Regular [])) [])
              eq_refl eq_refl eq_refl eq_refl) as [H _].
  exact (proj1 (H [] eq_refl _ eq_refl)).
Defined.

(** X12. When the removal of the blob fails for any reason other than the
    blob not being there, [DeleteData] returns that failure wrapped, leaves
    the medium as it is and does not start the cleanup: after the removal
    it makes no further call to the medium. *)
Theorem DeleteData_removal_failure (b : Backend) (ctx : Context) (id : string)
    (w : World) (e : PathError) :
  validateMessageID b id = None → closed b = false → ctx_Err ctx = None →
  os.Remove (fs w) (getDataPath b id) = fail e → IsNotExist e = false →
  DeleteData b ctx id w =
  (Some (Wrapf "failed to delete data file" (OsError e)),
   mkWorld (fs w) (trace w ++ [Lock; Done; IO (CallRemove (getDataPath b id)); Unlock])).
Proof.
  intros Hv Hopen Hlive Hrm Hne. unfold DeleteData. rewrite Hv, Hopen.
  unfold os_Remove, select_Done, bind, emit, ret, sys, change.
  cbn [fs trace]. rewrite Hlive. cbn [fs trace]. rewrite Hrm. cbn [fs trace].
  rewrite Hne. cbn [negb fs trace]. repeat rewrite <- app_assoc. reflexivity.
Qed.

Lemma DeleteData_removal_failure_witness :
  fst (DeleteData (mkBackend "/var/spool/data" false) background "ab1"
         (mkWorld (os.put spool ["var"; "spool"; "data"; "ab"] (os.Regular [])) [])) =
  Some (Wrapf "failed to delete data file"
          (OsError (mkPathError "remove" "/var/spool/data/ab/ab1.data" ENOTDIR))).
Proof.
  rewrite (DeleteData_removal_failure (mkBackend "/var/spool/data" false) background "ab1"
             (mkWorld (os.put spool ["var"; "spool"; "data"; "ab"] (os.Regular [])) [])
             (mkPathError "remove" "/var/spool/data/ab/ab1.data" ENOTDIR));
    reflexivity.
Defined.

(** ** The write handle *)

Section Writer.

Variables (b : Backend) (id : string).
Hypothesis Hv : validateMessageID b id = None.




End Writer.



(** ** Reading changes nothing; the lock is always given back *)

(** X14. [GetDataReader] never changes the medium, whatever the identifier,
    the state of the backend and the outcome, and it never takes the
    exclusive lock. *)
Theorem GetDataReader_read_only (b : Backend) (ctx : Context) (id : string) (w : World) :
  fs (snd (GetDataReader b ctx id w)) = fs w ∧
  ∃ l, trace (snd (GetDataReader b ctx id w)) = trace w ++ l ∧
       ¬ In Lock l ∧ ¬ In Unlock l.
Proof.
  unfold GetDataReader.
  destruct (validateMessageID b id);
    [split; [reflexivity|]; exists []; rewrite app_nil_r; auto|].
  unfold os_Open, select_Done, bind, emit, ret, sys, keep. cbn [fs trace snd].
  destruct (closed b); cbn [fs trace snd];
    [split; [reflexivity|]; eexists; split;
     [repeat rewrite <- app_assoc; reflexivity | simpl; intuition discriminate]|].
  destruct (ctx_Err ctx); cbn [fs trace snd];
    [split; [reflexivity|]; eexists; split;
     [repeat rewrite <- app_assoc; reflexivity | simpl; intuition discriminate]|].
  destruct (os.Open (fs w) _) as [f|e]; cbn [fs trace snd];
    [|destruct (IsNotExist e); cbn [fs trace snd]];
    (split; [reflexivity|]; eexists; split;
     [repeat rewrite <- app_assoc; reflexivity | simpl; intuition discriminate]).
Qed.

Lemma balanced_intro (lock unlock : event) (w w' : World) (mid : list event) :
  trace w' = (trace w ++ lock :: mid) ++ [unlock] →
  Forall (λ e, ¬ lock_event e) mid →
  balanced lock unlock w w'.
Proof.
  intros Htr Hmid. exists mid. split; [|assumption].
  now rewrite Htr, <- app_assoc.
Qed.

Lemma cleanupEmptyDirs_rec_calls (fuel : nat) (b : Backend) (dir : string) (w w' : World) :
  cleanupEmptyDirs_rec fuel b dir w = Some w' →
  ∃ l, trace w' = trace w ++ l ∧ Forall (λ e, ¬ lock_event e) l.
Proof.
  assert (∀ c, ¬ lock_event (IO c)) as Hio
    by (intros c [H|[H|[H|H]]]; discriminate).
  revert dir w. induction fuel as [|fuel IH]; intros dir w; simpl;
    (destruct (String.eqb dir (basePath b));
     [intros [= <-]; exists []; split; [now rewrite app_nil_r | constructor]|]);
    destruct (os_ReadDir_effect dir w) as (r & _ & ->);
    (destruct r as [[|e es]|e];
     [| intros [= <-]; eexists; split; [reflexivity | repeat constructor; apply Hio] ..]);
    set (w1 := mkWorld (fs w) (trace w ++ [IO (CallReadDir dir)]));
    (destruct (os_Remove_effect dir w1) as [(x' & Hrm & ->)|(e & Hrm & ->)];
     [| intros [= <-]; eexists; split;
        [cbn [trace w1]; rewrite <- app_assoc; reflexivity
        | repeat constructor; apply Hio]]); try discriminate.
  intros (l & Htr & Hl)%IH. cbn [trace w1] in Htr.
  eexists. split; [rewrite Htr; repeat rewrite <- app_assoc; reflexivity|].
  simpl. repeat constructor; try apply Hio. assumption.
Qed.

Ltac balanced_shape :=
  eapply balanced_intro;
  [ cbn [fs trace snd]; f_equal; repeat rewrite <- app_assoc; simpl; reflexivity
  | repeat constructor; intros [H|[H|[H|H]]]; discriminate ].

(** X15. Every operation gives back the lock it takes, on every path: with
    a valid identifier the log of an operation starts with the lock, ends
    with the matching unlock and has no lock event in between ([StoreData],
    [GetDataWriter], [DeleteData] and [Close] with the exclusive lock,
    [GetDataReader] with the shared one). *)
Theorem lock_released (b : Backend) (ctx : Context) (id : string) (data : Reader)
    (w : World) :
  validateMessageID b id = None →
  balanced Lock Unlock w (snd (StoreData b ctx id data w)) ∧
  balanced RLock RUnlock w (snd (GetDataReader b ctx id w)) ∧
  balanced Lock Unlock w (snd (GetDataWriter b ctx id w)) ∧
  balanced Lock Unlock w (snd (DeleteData b ctx id w)) ∧
  balanced Lock Unlock w (snd (Close b w)).
Proof.
  intros Hv. split; [|split; [|split; [|split]]].
  - unfold StoreData. rewrite Hv.
    unfold io_Copy, file_Close, os_MkdirAll, os_Create, select_Done, bind, emit, ret,
      sys, change. cbn [fs trace snd].
    destruct (closed b); cbn [fs trace snd]; [balanced_shape|].
    destruct (ctx_Err ctx); cbn [fs trace snd]; [balanced_shape|].
    destruct (os.MkdirAll _ _); cbn [fs trace snd]; [|balanced_shape].
    destruct (os.Create _ _) as [[f x]|]; cbn [fs trace snd]; [|balanced_shape].
    destruct (os.Write _ _ _); cbn [fs trace snd];
      [destruct (failure data)|]; balanced_shape.
  - unfold GetDataReader. rewrite Hv.
    unfold os_Open, select_Done, bind, emit, ret, sys, keep. cbn [fs trace snd].
    destruct (closed b); cbn [fs trace snd]; [balanced_shape|].
    destruct (ctx_Err ctx); cbn [fs trace snd]; [balanced_shape|].
    destruct (os.Open _ _) as [f|e]; cbn [fs trace snd]; [balanced_shape|].
    destruct (IsNotExist e); balanced_shape.
  - unfold GetDataWriter. rewrite Hv.
    unfold os_MkdirAll, os_Create, select_Done, bind, emit, ret, sys, change.
    cbn [fs trace snd].
    destruct (closed b); cbn [fs trace snd]; [balanced_shape|].
    destruct (ctx_Err ctx); cbn [fs trace snd]; [balanced_shape|].
    destruct (os.MkdirAll _ _); cbn [fs trace snd]; [|balanced_shape].
    destruct (os.Create _ _) as [[f x]|]; balanced_shape.
  - unfold DeleteData. rewrite Hv.
    unfold select_Done, bind, emit, ret. cbn [fs trace snd].
    destruct (closed b); cbn [fs trace snd]; [balanced_shape|].
    destruct (ctx_Err ctx); cbn [fs trace snd]; [balanced_shape|].
    assert (∀ v, ∃ l, trace (snd (cleanupEmptyDirs b
                                    (filepath.Dir (getDataPath b id)) v)) = trace v ++ l ∧
                      Forall (λ e, ¬ lock_event e) l) as Hclean.
    { intros v. destruct (cleanupEmptyDirs_total b (filepath.Dir (getDataPath b id)) v)
        as (v' & Hrec & ->).
      apply cleanupEmptyDirs_rec_calls in Hrec as (l & Htr & Hl). eauto. }
    match goal with |- context [os_Remove ?p ?v] =>
      destruct (os_Remove_effect p v) as [(x' & _ & ->)|(e & _ & ->)] end.
    + match goal with |- context [cleanupEmptyDirs b ?d ?v] =>
        destruct (Hclean v) as (l & Htr & Hl);
        destruct (cleanupEmptyDirs b d v) as [[] v'] end.
      cbn [fs trace snd] in *. eapply balanced_intro.
      * cbn [trace]. rewrite Htr. f_equal. repeat rewrite <- app_assoc. simpl. reflexivity.
      * repeat constructor; try (intros [H|[H|[H|H]]]; discriminate). assumption.
    + destruct (IsNotExist e); cbn [negb fs trace snd]; [|balanced_shape].
      match goal with |- context [cleanupEmptyDirs b ?d ?v] =>
        destruct (Hclean v) as (l & Htr & Hl);
        destruct (cleanupEmptyDirs b d v) as [[] v'] end.
      cbn [fs trace snd] in *. eapply balanced_intro.
      * cbn [trace]. rewrite Htr. f_equal. repeat rewrite <- app_assoc. simpl. reflexivity.
      * repeat constructor; try (intros [H|[H|[H|H]]]; discriminate). assumption.
  - unfold Close, bind, emit, ret. balanced_shape.
Qed.

Lemma lock_released_witness :
  balanced Lock Unlock (mkWorld spool_blob [])
    (snd (DeleteData (mkBackend "/var/spool/data" false) background "ab1"
            (mkWorld spool_blob []))).
Proof.
  exact (proj1 (proj2 (proj2 (proj2
    (lock_released (mkBackend "/var/spool/data" false) background "ab1"
       (mkReader [] None) (mkWorld spool_blob []) eq_refl))))).
Defined.

(** ** Reclaiming the shard directory *)

Lemma entries_empty (x : os.FS) (q : list string) :
  (∀ k n, os.nodes x !! k = Some n → removelast k = q → k = []) →
  os.entries x q = [].
Proof.
  intros H. destruct (os.entries x q) as [|name l] eqn:E; [reflexivity|].
  assert (name ∈ os.entries x q) as Hin by (rewrite E; left).
  unfold os.entries in Hin. apply list_elem_of_omap in Hin as ([k n] & Hkn & Hf).
  apply elem_of_map_to_list in Hkn. cbn [fst] in Hf.
  destruct (decide (removelast k = q)) as [Hq|]; [|discriminate].
  rewrite (H k n Hkn Hq) in Hf. discriminate.
Qed.

Section Reclaim.

Variables (b : Backend) (id : string).
Hypothesis Hv : validateMessageID b id = None.

Lemma last_element_dd : os.last_element (filepath.Dir (getDataPath b id)) = shard id.
Proof.
  destruct (plain_shard b id Hv) as (Hfree & Hne & _).
  pose proof (base_elements_normal (basePath b)) as Hn.
  unfold os.last_element. rewrite Dir_getDataPath by assumption.
  destruct (base_elements (basePath b)) as [|d ds].
  - destruct (filepath.rooted (basePath b)); simpl app; unfold filepath.render.
    + change (String filepath.Separator (strings.Join [shard id] "/"))
        with ("/" +:+ shard id).
      rewrite trim_separators_append by assumption.
      change ("/" +:+ shard id) with ("" +:+ String "/" (shard id)).
      rewrite elements_append_sep, (elements_no_separator _ Hfree). reflexivity.
    + simpl strings.Join. rewrite trim_separators_free by assumption.
      now rewrite (elements_no_separator _ Hfree).
  - rewrite render_snoc by discriminate.
    set (R := filepath.render _ _).
    replace (R +:+ String "/" (shard id)) with ((R +:+ "/") +:+ shard id)
      by (now rewrite append_assoc).
    rewrite trim_separators_append by assumption.
    rewrite append_assoc. change ("/" +:+ shard id) with (String "/" (shard id)).
    rewrite elements_append_sep, (elements_no_separator _ Hfree).
    apply last_last.
Qed.

Lemma dd_not_base : filepath.Dir (getDataPath b id) ≠ basePath b.
Proof.
  intros E. pose proof (Abs_Dir_getDataPath [] b id Hv) as H.
  rewrite E in H. apply (f_equal (@length string)) in H.
  rewrite length_app in H. simpl in H. lia.
Qed.

Lemma ReadDir_dd (x : os.FS) :
  os.Stat x (basePath b) = ok os.Directory →
  os.node_at x (shard_loc x b id) = Some os.Directory →
  os.ReadDir x (filepath.Dir (getDataPath b id)) = ok (os.entries x (shard_loc x b id)).
Proof.
  intros Hbase HD. unfold os.ReadDir.
  rewrite locate_eq, (Abs_dd b id Hv), traverse_dd, HD
    by (assumption || now apply dd_not_empty). reflexivity.
Qed.

Lemma Remove_dd (x : os.FS) :
  os.Stat x (basePath b) = ok os.Directory →
  os.node_at x (shard_loc x b id) = Some os.Directory →
  os.entries x (shard_loc x b id) = [] →
  os.Remove x (filepath.Dir (getDataPath b id)) = ok (os.drop x (shard_loc x b id)).
Proof.
  intros Hbase HD He. destruct (plain_shard b id Hv) as (_ & _ & Hdot & Hdotdot).
  unfold os.Remove. rewrite last_element_dd.
  apply String.eqb_neq in Hdot as ->. apply String.eqb_neq in Hdotdot as ->.
  rewrite locate_eq, (Abs_dd b id Hv), traverse_dd
    by (assumption || now apply dd_not_empty).
  pose proof (shard_loc_not_nil b id x) as Hne.
  destruct (shard_loc x b id) as [|n q] eqn:E; [contradiction|].
  now rewrite HD, He.
Qed.

(** The cleanup of a shard directory without entries removes it for good. *)
Lemma cleanup_empty_shard (fuel : nat) (w w' : World) :
  os.Stat (fs w) (basePath b) = ok os.Directory →
  os.node_at (fs w) (shard_loc (fs w) b id) = Some os.Directory →
  os.entries (fs w) (shard_loc (fs w) b id) = [] →
  cleanupEmptyDirs_rec fuel b (filepath.Dir (getDataPath b id)) w = Some w' →
  os.cwd (fs w') = os.cwd (fs w) ∧ os.node_at (fs w') (shard_loc (fs w) b id) = None.
Proof.
  intros Hbase HD He. pose proof dd_not_base as Hnb. apply String.eqb_neq in Hnb.
  pose proof (shard_loc_not_nil b id (fs w)) as Hne.
  destruct fuel as [|fuel]; simpl; rewrite Hnb;
    destruct (os_ReadDir_effect (filepath.Dir (getDataPath b id)) w) as (r & Hr & ->);
    rewrite ReadDir_dd, He in Hr by assumption; subst r;
    match goal with |- context [os_Remove ?p ?v] =>
      destruct (os_Remove_effect p v) as [(x' & Hrm & ->)|(e & Hrm & ->)] end;
    cbn [fs] in Hrm; rewrite Remove_dd in Hrm by assumption; try discriminate.
  injection Hrm as <-.
  intros (Hc & Hsub & _)%cleanupEmptyDirs_rec_effect. cbn [fs os.cwd os.nodes os.drop] in *.
  split; [assumption|].
  destruct (os.node_at (fs w') (shard_loc (fs w) b id)) as [n|] eqn:E; [|reflexivity].
  destruct (shard_loc (fs w) b id) as [|s q] eqn:ED; [contradiction|].
  cbn [os.node_at] in E. eapply lookup_weaken in E; [|exact Hsub].
  rewrite lookup_delete_eq in E. discriminate.
Qed.

(** The cleanup of a shard directory that has entries does nothing. *)
Lemma cleanup_shared_shard (fuel : nat) (w w' : World) :
  os.Stat (fs w) (basePath b) = ok os.Directory →
  os.node_at (fs w) (shard_loc (fs w) b id) = Some os.Directory →
  os.entries (fs w) (shard_loc (fs w) b id) ≠ [] →
  cleanupEmptyDirs_rec fuel b (filepath.Dir (getDataPath b id)) w = Some w' →
  fs w' = fs w.
Proof.
  intros Hbase HD He. pose proof dd_not_base as Hnb. apply String.eqb_neq in Hnb.
  destruct fuel as [|fuel]; simpl; rewrite Hnb;
    destruct (os_ReadDir_effect (filepath.Dir (getDataPath b id)) w) as (r & Hr & ->);
    rewrite ReadDir_dd in Hr by assumption; subst r;
    (destruct (os.entries (fs w) (shard_loc (fs w) b id)); [contradiction|]);
    now intros [= <-].
Qed.

(** The state after the removal of a stored blob. *)
Lemma blob_removed (x : os.FS) (c : list byte) :
  layout_ok x b id → stored x b id = Some c →
  os.Remove x (getDataPath b id) = ok (os.drop x (blob_loc x b id)) ∧
  os.Stat (os.drop x (blob_loc x b id)) (basePath b) = ok os.Directory ∧
  os.node_at (os.drop x (blob_loc x b id)) (shard_loc x b id) = Some os.Directory.
Proof.
  intros Hlay Hst.
  destruct (Remove_layout b id Hv x Hlay) as [_ [Hgone|[Hrm _]]].
  { apply (gone_not_stored b id Hv) in Hgone. congruence. }
  pose proof Hlay as (Hbase & _ & _).
  destruct (length_locs b id x) as [LD LQ].
  split; [assumption|]. split.
  - apply (base_ok_preserved b x); [reflexivity | | assumption].
    intros q Hq. apply node_at_drop_ne. intros ->. lia.
  - rewrite node_at_drop_ne by (intros E; rewrite E in LD; lia).
    apply stored_Some in Hst. rewrite (Stat_dp b id Hv) in Hst by assumption.
    now destruct (os.node_at x (shard_loc x b id)) as [[|c']|].
Qed.

End Reclaim.

(** X16. Deleting the only blob of a shard reclaims the shard directory:
    the call succeeds and the shard directory is gone afterwards; when the
    base path is in cleaned form the base directory is still there. *)
Theorem DeleteData_reclaims_shard (b : Backend) (ctx : Context) (id : string)
    (w : World) (c : list byte) :
  validateMessageID b id = None → closed b = false → ctx_Err ctx = None →
  layout_ok (fs w) b id → stored (fs w) b id = Some c →
  sole_entry (fs w) b id →
  fst (DeleteData b ctx id w) = None ∧
  os.peek (fs (snd (DeleteData b ctx id w))) (filepath.Dir (getDataPath b id)) = None ∧
  (filepath.Clean (basePath b) = basePath b →
   os.Stat (fs (snd (DeleteData b ctx id w))) (basePath b) = ok os.Directory).
Proof.
  intros Hv Hopen Hlive Hlay Hst Hsole.
  split; [|split]; [| |intros Hclean; now apply DeleteData_keeps_clean_base].
  - destruct (blob_removed b id Hv (fs w) c Hlay Hst) as (Hrm & _).
    destruct (DeleteData_ok b id Hv ctx w _ Hopen Hlive (or_introl Hrm)) as (w1 & -> & _).
    reflexivity.
  - destruct (blob_removed b id Hv (fs w) c Hlay Hst) as (Hrm & Hbase & HD).
    assert (os.entries (os.drop (fs w) (blob_loc (fs w) b id)) (shard_loc (fs w) b id) = [])
      as He.
    { apply entries_empty. intros k n Hk Hq. cbn [os.nodes os.drop] in Hk.
      destruct (decide (k = blob_loc (fs w) b id)) as [->|Hne].
      - rewrite lookup_delete_eq in Hk. discriminate.
      - rewrite lookup_delete_ne in Hk by congruence.
        destruct (Hsole k n Hk Hq); [assumption | contradiction]. }
    unfold DeleteData. rewrite Hv, Hopen.
    unfold os_Remove, select_Done, bind, emit, ret, sys, change. cbn [fs trace].
    rewrite Hlive. cbn [fs trace]. rewrite Hrm. cbn [fs trace].
    match goal with |- context [cleanupEmptyDirs b ?d ?v] =>
      destruct (cleanupEmptyDirs_total b d v) as (w' & Hrec & ->) end.
    cbn [fs trace snd].
    apply (cleanup_empty_shard b id Hv) in Hrec as [Hc Hnone]; cbn [fs]; try assumption.
    unfold os.peek. rewrite Hc. cbn [os.cwd os.drop].
    now rewrite (Abs_dd b id Hv).
Qed.

Lemma DeleteData_reclaims_shard_witness :
  fst (DeleteData (mkBackend "/var/spool/data" false) background "ab1"
         (mkWorld spool_blob [])) = None ∧
  os.peek
    (fs (snd (DeleteData (mkBackend "/var/spool/data" false) background "ab1"
                (mkWorld spool_blob [])))) "/var/spool/data/ab" = None ∧
  os.Stat
    (fs (snd (DeleteData (mkBackend "/var/spool/data" false) background "ab1"
                (mkWorld spool_blob [])))) "/var/spool/data" = ok os.Directory.
Proof.
  destruct (DeleteData_reclaims_shard (mkBackend "/var/spool/data" false) background "ab1"
              (mkWorld spool_blob []) [x68; x69] eq_refl eq_refl eq_refl)
    as (H1 & H2 & H3).
  - split; [reflexivity|]. split; [intros c|]; vm_compute; discriminate.
  - reflexivity.
  - intros k n Hk Hq. apply elem_of_map_to_list in Hk. vm_compute in Hk.
    repeat (apply elem_of_cons in Hk as [Hk|Hk];
            [injection Hk as -> _; vm_compute in Hq; try discriminate; auto|]).
    now apply elem_of_nil in Hk.
  - split; [exact H1|]. split; [exact H2 | now apply H3].
Defined.

(** X17. Deleting a blob from a shard that has other entries removes the
    blob and nothing else: the medium afterwards is the medium before
    without the blob. *)
Theorem DeleteData_keeps_shared_shard (b : Backend) (ctx : Context) (id : string)
    (w : World) (c : list byte) (k : list string) (n : os.node) :
  validateMessageID b id = None → closed b = false → ctx_Err ctx = None →
  layout_ok (fs w) b id → stored (fs w) b id = Some c →
  os.nodes (fs w) !! k = Some n → k ≠ [] → k ≠ blob_loc (fs w) b id →
  removelast k = shard_loc (fs w) b id →
  fst (DeleteData b ctx id w) = None ∧
  fs (snd (DeleteData b ctx id w)) = os.drop (fs w) (blob_loc (fs w) b id).
Proof.
  intros Hv Hopen Hlive Hlay Hst Hk Hk0 HkQ Hkq.
  destruct (blob_removed b id Hv (fs w) c Hlay Hst) as (Hrm & Hbase & HD).
  assert (os.entries (os.drop (fs w) (blob_loc (fs w) b id)) (shard_loc (fs w) b id) ≠ [])
    as He.
  { rewrite <- Hkq. apply (entries_not_empty _ k n); [|assumption].
    cbn [os.nodes os.drop]. now rewrite lookup_delete_ne by congruence. }
  unfold DeleteData. rewrite Hv, Hopen.
  unfold os_Remove, select_Done, bind, emit, ret, sys, change. cbn [fs trace].
  rewrite Hlive. cbn [fs trace]. rewrite Hrm. cbn [fs trace].
  match goal with |- context [cleanupEmptyDirs b ?d ?v] =>
    destruct (cleanupEmptyDirs_total b d v) as (w' & Hrec & ->) end.
  cbn [fs trace fst snd]. split; [reflexivity|].
  now apply (cleanup_shared_shard b id Hv) in Hrec.
Qed.

Lemma DeleteData_keeps_shared_shard_witness :
  fs (snd (DeleteData (mkBackend "/var/spool/data" false) background "ab1"
             (mkWorld spool_pair []))) =
  os.drop spool_pair ["var"; "spool"; "data"; "ab"; "ab1.data"].
Proof.
  refine (proj2 (DeleteData_keeps_shared_shard (mkBackend "/var/spool/data" false)
                   background "ab1" (mkWorld spool_pair []) [x68; x69]
                   ["var"; "spool"; "data"; "ab"; "ab2.data"] (os.Regular [x21])
                   eq_refl eq_refl eq_refl _ eq_refl eq_refl _ _ eq_refl));
    try discriminate.
  split; [reflexivity|]. split; [intros c|]; vm_compute; discriminate.
Defined.

(** ** Delete, then read or store again *)








(** ** The recursion of the cleanup *)

Lemma cleanupEmptyDirs_rec_more (fuel fuel' : nat) (b : Backend) (dir : string)
    (w w' : World) :
  fuel ≤ fuel' →
  cleanupEmptyDirs_rec fuel b dir w = Some w' →
  cleanupEmptyDirs_rec fuel' b dir w = Some w'.
Proof.
  revert fuel' dir w. induction fuel as [|fuel IH]; intros fuel' dir w Hle;
    (destruct fuel' as [|fuel']; [try lia|]); simpl;
    (destruct (String.eqb dir (basePath b)); [auto|]);
    destruct (os_ReadDir dir w) as [[[|e es]|e] w1]; auto;
    destruct (os_Remove dir w1) as [[[]|e] w2]; auto; try discriminate.
  apply IH. lia.
Qed.

(** X20. The recursion of [cleanupEmptyDirs] always comes to an end: every
    recursive call follows a removal, so a budget of as many calls as the
    medium has nodes is never used up, and any larger budget gives the
    same result. *)
Theorem cleanupEmptyDirs_terminates (fuel : nat) (b : Backend) (dir : string) (w : World) :
  size (os.nodes (fs w)) ≤ fuel →
  cleanupEmptyDirs_rec fuel b dir w = Some (snd (cleanupEmptyDirs b dir w)).
Proof.
  intros Hle. destruct (cleanupEmptyDirs_total b dir w) as (w' & Hrec & ->).
  cbn [snd]. now apply (cleanupEmptyDirs_rec_more (size (os.nodes (fs w)))).
Qed.

Lemma cleanupEmptyDirs_terminates_witness :
  cleanupEmptyDirs_rec 7 (mkBackend "/var/spool/data/" false) "/var/spool/data/ab"
    (mkWorld (os.drop spool_blob ["var"; "spool"; "data"; "ab"; "ab1.data"]) []) =
  Some (snd (cleanupEmptyDirs (mkBackend "/var/spool/data/" false) "/var/spool/data/ab"
               (mkWorld (os.drop spool_blob ["var"; "spool"; "data"; "ab"; "ab1.data"]) []))).
Proof.
  apply (cleanupEmptyDirs_terminates 7 (mkBackend "/var/spool/data/" false)
           "/var/spool/data/ab"
           (mkWorld (os.drop spool_blob ["var"; "spool"; "data"; "ab"; "ab1.data"]) [])).
  vm_compute. lia.
Defined.
